(** * Remote browser session controller (server.js): model and properties

    The server keeps, for every socket.io connection, five closure
    variables ([browser], [page], [cdpClient], [streaming],
    [streamTimeout]) and a handful of [async] handlers that read and
    write them.  Every [await] on a puppeteer call suspends the handler
    and lets any other handler, timer or engine reply of the same
    connection run before it resumes.

    The embedding follows that structure:
    - [conn] holds the closure variables of one connection together with
      the suspended handlers ([pool]), the armed timers ([timers]) and
      the observable [trace] (events sent to the client, log lines,
      engine calls issued, helper entries);
    - every handler is a function that runs the synchronous code up to
      its next [await] and returns the suspended continuation, if any;
    - [step] is one turn of the event loop: a socket event is delivered,
      an awaited engine call settles, or a timer fires.

    The render engine (puppeteer/Chrome) is external: whether a call
    resolves or rejects is an input of the model. *)

From Stdlib Require Import ZArith Lia.
From stdpp Require Import base option list strings gmap.

(** ** JavaScript values that reach the handlers *)

Definition DEFAULT_WIDTH : Z := 1280.
Definition DEFAULT_HEIGHT : Z := 720.
Definition FRAME_INTERVAL_MS : Z := 33.

(** [!url] for a value that is a string or absent. *)
Definition falsy_str (u : option string) : bool :=
  match u with
  | Some (String _ _) => false
  | _ => true
  end.

(** [v || d] for a value that is a number or absent: [0] and
    [undefined] are falsy, every other number (negative ones too) is
    kept. *)
Definition num_or (v : option Z) (d : Z) : Z :=
  match v with
  | Some n => if Z.eqb n 0 then d else n
  | None => d
  end.

(** A thrown value: an [Error] object (with its [name] and [message]) or
    any other value, given by its [String(..)] form. *)
Inductive thrown : Type :=
| ErrorObj (name message : string)
| Raw (text : string).

Definition to_String (e : thrown) : string :=
  match e with
  | ErrorObj n EmptyString => n
  | ErrorObj n m => n +:+ ": " +:+ m
  | Raw t => t
  end.

(** [err && err.message ? err.message : String(err)] *)
Definition err_text (e : thrown) : string :=
  match e with
  | ErrorObj _ (String _ _ as m) => m
  | _ => to_String e
  end.

(** Reading a property of [null]. *)
Definition null_deref (prop : string) : thrown :=
  ErrorObj "TypeError" ("Cannot read properties of null (reading '" +:+ prop +:+ "')").

(** Result of an awaited engine call. *)
Inductive outcome : Type :=
| Resolve (data : string)
| Reject (err : thrown).

Record input_event : Type := {
  ev_type : string;
  ev_x : option Z;
  ev_y : option Z;
  ev_deltaX : option Z;
  ev_deltaY : option Z;
  ev_scale : option Z;
  ev_key : option string;
  ev_text : option string
}.

(** Events a client (or the transport) can raise on the socket. *)
Inductive command : Type :=
| StartSession (url : option string) (width height : option Z)
| InputEvent (e : input_event)
| Resize (width height : option Z)
| Navigate (newUrl : option string)
| Disconnect
| SocketError (err : thrown).

(** Events the server sends with [socket.emit]. *)
Inductive out_event : Type :=
| EvError (msg : string)
| SessionStarted
| Frame (data : string)
| LoadingStart
| LoadingEnd.

(** Calls on the render engine; handles are numbered. *)
Inductive op : Type :=
| Launch (executablePath : option string)
| NewPage (b : nat)
| SetUserAgent (p : nat)
| CreateCDPSession (p : nat)
| PageEnable (c : nat)
| EvaluateOnNewDocument (p : nat)
| SetViewport (p : nat) (w h : Z)
| Goto (p : nat) (url : option string) (waitUntil : string)
| Screenshot (p : nat)
| MouseClick (p : nat) (x y : option Z)
| MouseMove (p : nat) (x y : option Z)
| MouseWheel (p : nat) (deltaX deltaY : Z)
| SetPageScaleFactor (c : nat) (scale : option Z)
| KeyboardPress (p : nat) (key : option string)
| KeyboardType (p : nat) (text : option string)
| CdpDetach (c : nat)
| PageClose (p : nat)
| BrowserClose (b : nat).

Inductive log_line : Type :=
| LogLaunching (executablePath : option string)
| LogNavigating (url : option string) (vw vh : Z)
| LogFrameCaptureError (msg : string)
| LogSessionStartError (msg : string)
| LogTip
| LogTried (exec : string)
| LogZoomFailed (msg : string)
| LogInputError (msg : string)
| LogResizing (w h : Z)
| LogResizeError (msg : string)
| LogNavigateTo (url : option string)
| LogNavigationError (msg : string)
| LogUserDisconnected
| LogSocketError (err : thrown).

Inductive helper : Type := StopStreaming | CleanupBrowser.

(** What an observer of the connection can record, in order. *)
Inductive obs : Type :=
| Emit (e : out_event)
| Log (l : log_line)
| Call (o : op)
| Enter (f : helper).

(** ** Suspended handlers *)

Record start_args : Type := {
  url : option string;
  width : option Z;
  height : option Z
}.

(** Who called [cleanupBrowser]: the start-session handler before the
    launch, its [catch] block, or the disconnect / socket-error
    handlers. *)
Inductive caller : Type :=
| FromStart (a : start_args)
| FromCatch
| FromTeardown.

(** The code that runs when the awaited call settles.  The awaited call
    itself tells at which [await] of that code the handler stands. *)
Inductive kont : Type :=
| KCleanup (who : caller)
| KStart (a : start_args)
| KCapture (loop : nat)
| KInput
| KZoom
| KResize
| KNavigate.

Definition pending : Type := op * kont.

(** ** One connection *)

Record conn : Type := {
  browser : option nat;
  page : option nat;
  cdpClient : option nat;
  streaming : bool;
  streamTimeout : option nat;
  connected : bool;
  chromeExec : option string;
  pool : list (option pending);
  timers : list (option nat);
  loops : nat;
  next_handle : nat;
  live : list nat;
  viewports : gmap nat (Z * Z);
  listening : list nat;
  trace : list obs
}.

Definition init (exec : option string) : conn := {|
  browser := None; page := None; cdpClient := None;
  streaming := false; streamTimeout := None;
  connected := true; chromeExec := exec;
  pool := []; timers := []; loops := 0; next_handle := 0;
  live := []; viewports := ∅; listening := []; trace := []
|}.

Definition set_browser (v : option nat) (s : conn) : conn :=
  {| browser := v; page := page s; cdpClient := cdpClient s;
     streaming := streaming s; streamTimeout := streamTimeout s;
     connected := connected s; chromeExec := chromeExec s;
     pool := pool s; timers := timers s; loops := loops s;
     next_handle := next_handle s; live := live s;
     viewports := viewports s; listening := listening s; trace := trace s |}.

Definition set_page (v : option nat) (s : conn) : conn :=
  {| browser := browser s; page := v; cdpClient := cdpClient s;
     streaming := streaming s; streamTimeout := streamTimeout s;
     connected := connected s; chromeExec := chromeExec s;
     pool := pool s; timers := timers s; loops := loops s;
     next_handle := next_handle s; live := live s;
     viewports := viewports s; listening := listening s; trace := trace s |}.

Definition set_cdpClient (v : option nat) (s : conn) : conn :=
  {| browser := browser s; page := page s; cdpClient := v;
     streaming := streaming s; streamTimeout := streamTimeout s;
     connected := connected s; chromeExec := chromeExec s;
     pool := pool s; timers := timers s; loops := loops s;
     next_handle := next_handle s; live := live s;
     viewports := viewports s; listening := listening s; trace := trace s |}.

Definition set_streaming (v : bool) (s : conn) : conn :=
  {| browser := browser s; page := page s; cdpClient := cdpClient s;
     streaming := v; streamTimeout := streamTimeout s;
     connected := connected s; chromeExec := chromeExec s;
     pool := pool s; timers := timers s; loops := loops s;
     next_handle := next_handle s; live := live s;
     viewports := viewports s; listening := listening s; trace := trace s |}.

Definition set_streamTimeout (v : option nat) (s : conn) : conn :=
  {| browser := browser s; page := page s; cdpClient := cdpClient s;
     streaming := streaming s; streamTimeout := v;
     connected := connected s; chromeExec := chromeExec s;
     pool := pool s; timers := timers s; loops := loops s;
     next_handle := next_handle s; live := live s;
     viewports := viewports s; listening := listening s; trace := trace s |}.

Definition set_connected (v : bool) (s : conn) : conn :=
  {| browser := browser s; page := page s; cdpClient := cdpClient s;
     streaming := streaming s; streamTimeout := streamTimeout s;
     connected := v; chromeExec := chromeExec s;
     pool := pool s; timers := timers s; loops := loops s;
     next_handle := next_handle s; live := live s;
     viewports := viewports s; listening := listening s; trace := trace s |}.

Definition set_pool (v : list (option pending)) (s : conn) : conn :=
  {| browser := browser s; page := page s; cdpClient := cdpClient s;
     streaming := streaming s; streamTimeout := streamTimeout s;
     connected := connected s; chromeExec := chromeExec s;
     pool := v; timers := timers s; loops := loops s;
     next_handle := next_handle s; live := live s;
     viewports := viewports s; listening := listening s; trace := trace s |}.

Definition set_timers (v : list (option nat)) (s : conn) : conn :=
  {| browser := browser s; page := page s; cdpClient := cdpClient s;
     streaming := streaming s; streamTimeout := streamTimeout s;
     connected := connected s; chromeExec := chromeExec s;
     pool := pool s; timers := v; loops := loops s;
     next_handle := next_handle s; live := live s;
     viewports := viewports s; listening := listening s; trace := trace s |}.

Definition set_loops (v : nat) (s : conn) : conn :=
  {| browser := browser s; page := page s; cdpClient := cdpClient s;
     streaming := streaming s; streamTimeout := streamTimeout s;
     connected := connected s; chromeExec := chromeExec s;
     pool := pool s; timers := timers s; loops := v;
     next_handle := next_handle s; live := live s;
     viewports := viewports s; listening := listening s; trace := trace s |}.

Definition set_next_handle (v : nat) (s : conn) : conn :=
  {| browser := browser s; page := page s; cdpClient := cdpClient s;
     streaming := streaming s; streamTimeout := streamTimeout s;
     connected := connected s; chromeExec := chromeExec s;
     pool := pool s; timers := timers s; loops := loops s;
     next_handle := v; live := live s;
     viewports := viewports s; listening := listening s; trace := trace s |}.

Definition set_live (v : list nat) (s : conn) : conn :=
  {| browser := browser s; page := page s; cdpClient := cdpClient s;
     streaming := streaming s; streamTimeout := streamTimeout s;
     connected := connected s; chromeExec := chromeExec s;
     pool := pool s; timers := timers s; loops := loops s;
     next_handle := next_handle s; live := v;
     viewports := viewports s; listening := listening s; trace := trace s |}.

Definition set_viewports (v : gmap nat (Z * Z)) (s : conn) : conn :=
  {| browser := browser s; page := page s; cdpClient := cdpClient s;
     streaming := streaming s; streamTimeout := streamTimeout s;
     connected := connected s; chromeExec := chromeExec s;
     pool := pool s; timers := timers s; loops := loops s;
     next_handle := next_handle s; live := live s;
     viewports := v; listening := listening s; trace := trace s |}.

Definition set_listening (v : list nat) (s : conn) : conn :=
  {| browser := browser s; page := page s; cdpClient := cdpClient s;
     streaming := streaming s; streamTimeout := streamTimeout s;
     connected := connected s; chromeExec := chromeExec s;
     pool := pool s; timers := timers s; loops := loops s;
     next_handle := next_handle s; live := live s;
     viewports := viewports s; listening := v; trace := trace s |}.

Definition set_trace (v : list obs) (s : conn) : conn :=
  {| browser := browser s; page := page s; cdpClient := cdpClient s;
     streaming := streaming s; streamTimeout := streamTimeout s;
     connected := connected s; chromeExec := chromeExec s;
     pool := pool s; timers := timers s; loops := loops s;
     next_handle := next_handle s; live := live s;
     viewports := viewports s; listening := listening s; trace := v |}.

(** ** Primitive effects *)

Definition observe (o : obs) (s : conn) : conn := set_trace (trace s ++ [o]) s.
Definition emit (e : out_event) : conn -> conn := observe (Emit e).
Definition log (l : log_line) : conn -> conn := observe (Log l).

(** [await <engine call>]: the call is issued and the handler is
    suspended on it. *)
Definition await (o : op) (k : kont) (s : conn) : conn * option pending :=
  (observe (Call o) s, Some (o, k)).

(** A handler started without being awaited gets a pool slot of its own. *)
Definition spawn (t : pending) (s : conn) : conn :=
  set_pool (pool s ++ [Some t]) s.

Definition clearTimeout (t : nat) (s : conn) : conn :=
  set_timers (<[t := None]> (timers s)) s.

(** [setTimeout(captureFrame, FRAME_INTERVAL_MS)] for the closure of
    loop [l]; the timer id is its index. *)
Definition setTimeout (l : nat) (s : conn) : nat * conn :=
  (length (timers s), set_timers (timers s ++ [Some l]) s).

(** ** The handlers of one connection *)

(** [stopStreaming]: it contains no engine call, so awaiting it lets no
    socket event, timer or engine reply in; it is run in one piece. *)
Definition stopStreaming (s : conn) : conn :=
  let s := observe (Enter StopStreaming) s in
  let s := set_streaming false s in
  match streamTimeout s with
  | Some t => set_streamTimeout None (clearTimeout t s)
  | None => s
  end.

(** [captureFrame] of loop [l], up to its [await page.screenshot(..)]. *)
Definition captureFrame (l : nat) (s : conn) : conn :=
  match page s, browser s with
  | Some p, Some _ =>
      if streaming s && connected s
      then spawn (Screenshot p, KCapture l) (observe (Call (Screenshot p)) s)
      else s
  | _, _ => s
  end.

(** The rest of [captureFrame] once the screenshot has settled. *)
Definition captureFrame_resume (l : nat) (r : outcome) (s : conn) : conn :=
  match r with
  | Resolve screenshot =>
      let s := emit (Frame screenshot) s in
      let '(t, s) := setTimeout l s in
      set_streamTimeout (Some t) s
  | Reject err =>
      let s := log (LogFrameCaptureError (err_text err)) s in
      set_streaming false s
  end.

(** The try block of the start-session handler, from
    [puppeteer.launch]. *)
Definition start_launch (a : start_args) (s : conn) : conn * option pending :=
  let s := log (LogLaunching (chromeExec s)) s in
  await (Launch (chromeExec s)) (KStart a) s.

(** [cleanupBrowser], cut at its three awaits.  Every close sits in a
    [try { .. } catch (e) {}] of its own, so the handle is dropped
    whether the call resolved or rejected. *)
Definition cleanup_done (who : caller) (s : conn) : conn * option pending :=
  match who with
  | FromStart a => start_launch a s
  | FromCatch | FromTeardown => (s, None)
  end.

Definition cleanup_browser (who : caller) (s : conn) : conn * option pending :=
  match browser s with
  | Some b => await (BrowserClose b) (KCleanup who) s
  | None => cleanup_done who s
  end.

Definition cleanup_page (who : caller) (s : conn) : conn * option pending :=
  match page s with
  | Some p => await (PageClose p) (KCleanup who) s
  | None => cleanup_browser who s
  end.

Definition cleanupBrowser (who : caller) (s : conn) : conn * option pending :=
  let s := observe (Enter CleanupBrowser) s in
  match cdpClient s with
  | Some c => await (CdpDetach c) (KCleanup who) s
  | None => cleanup_page who s
  end.

Definition cleanup_resume (who : caller) (o : op) (s : conn) : conn * option pending :=
  match o with
  | CdpDetach _ => cleanup_page who (set_cdpClient None s)
  | PageClose _ => cleanup_browser who (set_page None s)
  | BrowserClose _ => cleanup_done who (set_browser None s)
  | _ => (s, None)
  end.

(** The catch block of the start-session handler. *)
Definition start_catch (err : thrown) (s : conn) : conn * option pending :=
  let s := log (LogSessionStartError (err_text err)) s in
  let s := log (match chromeExec s with
                | None => LogTip
                | Some e => LogTried e
                end) s in
  let s := emit (EvError ("Failed to start session: " +:+ err_text err)) s in
  let s := stopStreaming s in
  cleanupBrowser FromCatch s.

(** [socket.on('start-session', ..)] up to its first await. *)
Definition start_session (u : option string) (w h : option Z) (s : conn)
  : conn * option pending :=
  if falsy_str u then (emit (EvError "No URL provided") s, None)
  else
    let s := stopStreaming s in
    cleanupBrowser (FromStart {| url := u; width := w; height := h |}) s.

(** The try block after the await on [o] has resolved; [h] is the handle
    the engine returned (for the three calls that create one).  The
    closure variables are read again after every await, as the source
    does; a [null] one raises a TypeError into the catch block. *)
Definition start_resolved (a : start_args) (o : op) (h : nat) (s : conn)
  : conn * option pending :=
  match o with
  | Launch _ =>
      let s := set_browser (Some h) s in
      await (NewPage h) (KStart a) s
  | NewPage _ =>
      let s := set_page (Some h) s in
      await (SetUserAgent h) (KStart a) s
  | SetUserAgent _ =>
      match page s with
      | Some p => await (CreateCDPSession p) (KStart a) s
      | None => start_catch (null_deref "target") s
      end
  | CreateCDPSession _ =>
      let s := set_cdpClient (Some h) s in
      await (PageEnable h) (KStart a) s
  | PageEnable _ =>
      match cdpClient s with
      | Some c =>
          let s := set_listening (c :: listening s) s in
          match page s with
          | Some p => await (EvaluateOnNewDocument p) (KStart a) s
          | None => start_catch (null_deref "on") s
          end
      | None => start_catch (null_deref "on") s
      end
  | EvaluateOnNewDocument _ =>
      let vw := num_or (width a) DEFAULT_WIDTH in
      let vh := num_or (height a) DEFAULT_HEIGHT in
      match page s with
      | Some p => await (SetViewport p vw vh) (KStart a) s
      | None => start_catch (null_deref "setViewport") s
      end
  | SetViewport _ vw vh =>
      let s := log (LogNavigating (url a) vw vh) s in
      match page s with
      | Some p => await (Goto p (url a) "networkidle2") (KStart a) s
      | None => start_catch (null_deref "goto") s
      end
  | Goto _ _ _ =>
      let s := set_streaming true s in
      let s := emit SessionStarted s in
      let l := loops s in
      let s := set_loops (S l) s in
      (captureFrame l s, None)
  | _ => (s, None)
  end.

Definition start_resume (a : start_args) (o : op) (r : outcome) (h : nat) (s : conn)
  : conn * option pending :=
  match r with
  | Resolve _ => start_resolved a o h s
  | Reject err => start_catch err s
  end.

(** [socket.on('input-event', ..)] *)
Definition input_event_handler (e : input_event) (s : conn) : conn * option pending :=
  match page s with
  | None => (s, None)
  | Some p =>
      if String.eqb (ev_type e) "click" then
        await (MouseClick p (ev_x e) (ev_y e)) KInput s
      else if String.eqb (ev_type e) "mousemove" then
        await (MouseMove p (ev_x e) (ev_y e)) KInput s
      else if String.eqb (ev_type e) "scroll" then
        await (MouseWheel p (num_or (ev_deltaX e) 0) (num_or (ev_deltaY e) 0)) KInput s
      else if String.eqb (ev_type e) "zoom" then
        match cdpClient s with
        | Some c => await (SetPageScaleFactor c (ev_scale e)) KZoom s
        | None => (s, None)
        end
      else if String.eqb (ev_type e) "keydown" then
        await (KeyboardPress p (ev_key e)) KInput s
      else if String.eqb (ev_type e) "type" then
        await (KeyboardType p (ev_text e)) KInput s
      else (s, None)
  end.

Definition input_resume (r : outcome) (s : conn) : conn :=
  match r with
  | Resolve _ => s
  | Reject err => log (LogInputError (err_text err)) s
  end.

Definition zoom_resume (r : outcome) (s : conn) : conn :=
  match r with
  | Resolve _ => s
  | Reject e => log (LogZoomFailed (err_text e)) s
  end.

(** [socket.on('resize', ..)] *)
Definition resize_handler (w0 h0 : option Z) (s : conn) : conn * option pending :=
  match page s with
  | None => (s, None)
  | Some p =>
      let w := num_or w0 DEFAULT_WIDTH in
      let h := num_or h0 DEFAULT_HEIGHT in
      let s := log (LogResizing w h) s in
      await (SetViewport p w h) KResize s
  end.

Definition resize_resume (r : outcome) (s : conn) : conn :=
  match r with
  | Resolve _ => s
  | Reject err => log (LogResizeError (err_text err)) s
  end.

(** [socket.on('navigate', ..)] *)
Definition navigate_handler (newUrl : option string) (s : conn) : conn * option pending :=
  match page s with
  | None => (s, None)
  | Some p =>
      let s := log (LogNavigateTo newUrl) s in
      await (Goto p newUrl "domcontentloaded") KNavigate s
  end.

Definition navigate_resume (r : outcome) (s : conn) : conn :=
  match r with
  | Resolve _ => s
  | Reject err => log (LogNavigationError (err_text err)) s
  end.

(** [socket.on('disconnect', ..)]; socket.io has cleared
    [socket.connected] when the event is raised. *)
Definition disconnect_handler (s : conn) : conn * option pending :=
  let s := set_connected false s in
  let s := log LogUserDisconnected s in
  let s := stopStreaming s in
  cleanupBrowser FromTeardown s.

(** [socket.on('error', ..)] *)
Definition error_handler (err : thrown) (s : conn) : conn * option pending :=
  let s := log (LogSocketError err) s in
  let s := stopStreaming s in
  cleanupBrowser FromTeardown s.

Definition handle (c : command) (s : conn) : conn * option pending :=
  match c with
  | StartSession u w h => start_session u w h s
  | InputEvent e => input_event_handler e s
  | Resize w h => resize_handler w h s
  | Navigate u => navigate_handler u s
  | Disconnect => disconnect_handler s
  | SocketError err => error_handler err s
  end.

(** ** The render engine, as far as the properties need it

    A browser handle is live from the moment [puppeteer.launch] has
    resolved with it until a [close()] on it has settled (acquire and
    release as the server can observe them).  A resolved [setViewport]
    sets the viewport of its page.  [fresh] numbers the handles. *)
Definition fresh (s : conn) : nat * conn :=
  (next_handle s, set_next_handle (S (next_handle s)) s).

Definition engine_settle (o : op) (r : outcome) (s : conn) : nat * conn :=
  match o, r with
  | Launch _, Resolve _ =>
      let '(h, s) := fresh s in (h, set_live (h :: live s) s)
  | NewPage _, Resolve _ => fresh s
  | CreateCDPSession _, Resolve _ => fresh s
  | SetViewport p w h, Resolve _ =>
      (0, set_viewports (<[p := (w, h)]> (viewports s)) s)
  | BrowserClose b, _ =>
      (0, set_live (filter (λ x, x ≠ b) (live s)) s)
  | _, _ => (0, s)
  end.

(** The continuation [k] of a handler suspended on [o] runs with the
    result [r]. *)
Definition resume (k : kont) (o : op) (r : outcome) (h : nat) (s : conn)
  : conn * option pending :=
  match k with
  | KCleanup who => cleanup_resume who o s
  | KStart a => start_resume a o r h s
  | KCapture l => (captureFrame_resume l r s, None)
  | KInput => (input_resume r s, None)
  | KZoom => (zoom_resume r s, None)
  | KResize => (resize_resume r s, None)
  | KNavigate => (navigate_resume r s, None)
  end.

Definition settle (t : pending) (r : outcome) (s : conn) : conn * option pending :=
  let '(h, s) := engine_settle t.1 r s in
  resume t.2 t.1 r h s.

(** The listeners installed on the CDP session. *)
Definition cdp_notify (c : nat) (name : string) (s : conn) : conn :=
  if bool_decide (c ∈ listening s) then
    if String.eqb name "Page.frameStartedLoading" then emit LoadingStart s
    else if String.eqb name "Page.loadEventFired" then emit LoadingEnd s
    else if String.eqb name "Page.frameStoppedLoading" then emit LoadingEnd s
    else s
  else s.

(** ** The event loop of one connection *)

Inductive event : Type :=
| Recv (c : command)
| Settle (tid : nat) (r : outcome)
| Fire (t : nat)
| CdpEvent (c : nat) (name : string).

Definition step (e : event) (s : conn) : conn :=
  match e with
  | Recv c =>
      let '(s, k) := handle c s in
      set_pool (pool s ++ [k]) s
  | Settle tid r =>
      match pool s !! tid with
      | Some (Some t) =>
          let '(s, k) := settle t r s in
          set_pool (<[tid := k]> (pool s)) s
      | _ => s
      end
  | Fire t =>
      match timers s !! t with
      | Some (Some l) => captureFrame l (clearTimeout t s)
      | _ => s
      end
  | CdpEvent c name => cdp_notify c name s
  end.

Definition run (es : list event) (s : conn) : conn :=
  fold_left (λ s e, step e s) es s.

(** A handler run on its own: every call it awaits settles, with the
    result [oracle] gives for the [i]-th await, before anything else
    happens on the connection. *)
Fixpoint run_alone (fuel : nat) (oracle : nat -> op -> outcome) (i : nat)
    (st : conn * option pending) : conn * option pending :=
  match fuel, st with
  | S fuel, (s, Some t) => run_alone fuel oracle (S i) (settle t (oracle i t.1) s)
  | _, _ => st
  end.

(** ** Observations on a state *)

Definition is_frame (o : obs) : bool :=
  match o with Emit (Frame _) => true | _ => false end.
Definition is_session_started (o : obs) : bool :=
  match o with Emit SessionStarted => true | _ => false end.
Definition is_emit (o : obs) : bool :=
  match o with Emit _ => true | _ => false end.
Definition is_call (o : obs) : bool :=
  match o with Call _ => true | _ => false end.
Definition is_cleanup_entry (o : obs) : bool :=
  match o with Enter CleanupBrowser => true | _ => false end.

Definition count (f : obs -> bool) (s : conn) : nat :=
  length (List.filter f (trace s)).

Definition frames : conn -> nat := count is_frame.
Definition sessions_started : conn -> nat := count is_session_started.

Definition is_capture (t : option pending) : bool :=
  match t with Some (_, KCapture _) => true | _ => false end.
Definition is_capture_of (l : nat) (t : option pending) : bool :=
  match t with Some (_, KCapture l') => Nat.eqb l l' | _ => false end.
Definition is_timer_of (l : nat) (t : option nat) : bool :=
  match t with Some l' => Nat.eqb l l' | None => false end.

(** Capture ticks whose screenshot is in flight. *)
Definition in_flight (s : conn) : nat :=
  length (List.filter is_capture (pool s)).
Definition in_flight_of (l : nat) (s : conn) : nat :=
  length (List.filter (is_capture_of l) (pool s)).
Definition scheduled_of (l : nat) (s : conn) : nat :=
  length (List.filter (is_timer_of l) (timers s)).


(** ** Classifying commands and engine calls *)


Definition is_goto (o : op) : bool :=
  match o with Goto _ _ _ => true | _ => false end.

Definition is_teardown (c : command) : bool :=
  match c with Disconnect | SocketError _ => true | _ => false end.

(** [cleanupBrowser] returns to its caller when it is done; in the
    start-session handler the launch follows in the same handler. *)
Definition returns_to_caller (who : caller) : bool :=
  match who with FromStart _ => false | FromCatch | FromTeardown => true end.

(** ** Engines that refuse *)

(** The place of an engine call in the try block of the start-session
    handler. *)
Definition try_position (o : op) : option nat :=
  match o with
  | Launch _ => Some 0
  | NewPage _ => Some 1
  | SetUserAgent _ => Some 2
  | CreateCDPSession _ => Some 3
  | PageEnable _ => Some 4
  | EvaluateOnNewDocument _ => Some 5
  | SetViewport _ _ _ => Some 6
  | Goto _ _ _ => Some 7
  | _ => None
  end.

(** The engine fails the start at call [n] of the try block: the calls
    before it resolve, call [n] is rejected with [err]; the calls of
    [cleanupBrowser] are answered in any way. *)
Definition fails_at (n : nat) (oracle : nat -> op -> outcome) (err : thrown) : Prop :=
  (forall i o m, try_position o = Some m -> m < n -> exists d, oracle i o = Resolve d)
  /\ (forall i o, try_position o = Some n -> oracle i o = Reject err).

Definition resolves_all (oracle : nat -> op -> outcome) : Prop :=
  forall i o, exists d, oracle i o = Resolve d.

(** ** Concrete schedules *)

Definition ok : outcome := Resolve "".
Definition start_a : event :=
  Recv (StartSession (Some "https://a.example") (Some 800%Z) (Some 600%Z)).
Definition start_b : event :=
  Recv (StartSession (Some "https://b.example") None None).

(** The eight awaits of a start-session handler on a fresh connection. *)
Definition through (tid : nat) : list event := replicate 8 (Settle tid ok).

(** A session streaming [https://a.example] at 800x600, its first
    screenshot in flight. *)
Definition streaming_a : conn := run (start_a :: through 0) (init None).


(** A second start-session arrives while the first session streams; the
    screenshot of the first session has not settled. *)
Definition restart : list event :=
  start_a :: through 0 ++ start_b :: replicate 11 (Settle 2 ok).
Definition restarted : conn := run restart (init None).

Definition timeout_err : thrown := ErrorObj "TimeoutError" "timeout".

(** The first start-session is awaiting its navigation when the second
    one, delivered during the launch of the first, has its session
    streaming; then the navigation of the first is rejected. *)
Definition overlapped_b_streaming : conn :=
  run (start_a :: start_b :: replicate 7 (Settle 0 ok) ++ through 1) (init None).
Definition failing_overlap : list event :=
  Settle 0 (Reject timeout_err) :: replicate 3 (Settle 0 ok).

(** An engine whose navigations time out, and one that answers every
    call. *)
Definition unreachable : nat -> op -> outcome :=
  fun _ o =>
    if is_goto o then Reject (ErrorObj "TimeoutError" "timeout") else Resolve "".
Definition obliging : nat -> op -> outcome := fun _ _ => Resolve "".

(** ** Footprints *)

(** [quiet s s'] describes the turns that neither send a frame nor start
    a session: the trace grows by other observations, the loop counter
    is kept, streaming is not switched on, no timer is armed and a
    closed socket stays closed. *)
Definition benign (o : obs) : bool :=
  negb (is_frame o) && negb (is_session_started o).

Record quiet (s s' : conn) : Prop := Quiet {
  quiet_trace : exists tr, trace s' = trace s ++ tr /\ forallb benign tr = true;
  quiet_loops : loops s' = loops s;
  quiet_streaming : streaming s = false -> streaming s' = false;
  quiet_timers : forall l, scheduled_of l s' <= scheduled_of l s;
  quiet_connected : connected s = false -> connected s' = false
}.

(** The one continuation that switches streaming on: the start-session
    handler after its [page.goto] has resolved. *)
Definition goto_resolved (t : pending) (r : outcome) : bool :=
  match t, r with
  | (Goto _ _ _, KStart _), Resolve _ => true
  | _, _ => false
  end.

(** [released s s']: the handles are dropped, nothing was sent to the
    client and no browser was added. *)
Record released (s s' : conn) : Prop := Released {
  rel_handles : (browser s', page s', cdpClient s') = (None, None, None);
  rel_trace : exists tr, trace s' = trace s ++ tr /\ List.filter is_emit tr = [];
  rel_stream : (streaming s', streamTimeout s') = (streaming s, streamTimeout s);
  rel_live : forall x, x ∈ live s' -> x ∈ live s
}.

(** [failed err s s']: the failure was reported to the client once, with
    its cause, and nothing of the session is left. *)
Record failed (err : thrown) (s s' : conn) : Prop := Failed {
  fail_handles : (browser s', page s', cdpClient s') = (None, None, None);
  fail_trace : exists tr, trace s' = trace s ++ tr /\
     List.filter is_emit tr
     = [Emit (EvError ("Failed to start session: " +:+ err_text err))];
  fail_stream : (streaming s', streamTimeout s') = (false, None);
  fail_live : forall x, x ∈ live s' -> x ∈ live s
}.

(** ** Invariants *)

(** Every capture loop has at most one tick in flight or scheduled, and
    loops not yet created have none. *)
Definition one_tick_per_loop (s : conn) : Prop :=
  forall l, in_flight_of l s + scheduled_of l s <= 1
            /\ (loops s <= l -> in_flight_of l s + scheduled_of l s = 0).









(** ** Further vocabulary *)

(** The commands that act on the page of a running session. *)
Definition is_page_command (c : command) : bool :=
  match c with InputEvent _ | Resize _ _ | Navigate _ => true | _ => false end.

(** The session [streaming_a] after its first frame has been sent: the
    timer of the next tick is armed. *)
Definition armed_a : conn := step (Settle 1 (Resolve "f0")) streaming_a.

(** The calls [cleanupBrowser] makes for the handles it finds. *)
Definition release_calls (s : conn) : list op :=
  from_option (λ c, [CdpDetach c]) [] (cdpClient s)
  ++ from_option (λ p, [PageClose p]) [] (page s)
  ++ from_option (λ b, [BrowserClose b]) [] (browser s).

(** [untouched s s']: what [cleanupBrowser] does not write. *)
Record untouched (s s' : conn) : Prop := Untouched {
  same_socket : (connected s', chromeExec s') = (connected s, chromeExec s);
  same_tasks : (pool s', timers s', loops s') = (pool s, timers s, loops s);
  same_engine : (next_handle s', viewports s', listening s')
                = (next_handle s, viewports s, listening s)
}.

(** [started a b s s']: a session for [a] is streaming on the handles
    numbered from [b], its listeners installed and its first tick begun
    (if the client is still there). *)
Record started (a : start_args) (b : nat) (s s' : conn) : Prop := Started {
  started_handles :
    (browser s', page s', cdpClient s') = (Some b, Some (S b), Some (S (S b)));
  started_trace : exists tr, trace s' = trace s ++ tr
                             /\ List.filter is_emit tr = [Emit SessionStarted];
  started_streaming : streaming s' = true;
  started_viewport :
    viewports s' !! S b
    = Some (num_or (width a) DEFAULT_WIDTH, num_or (height a) DEFAULT_HEIGHT);
  started_listening : S (S b) ∈ listening s';
  started_tick :
    pool s' = pool s ++ (if connected s
                         then [Some (Screenshot (S b), KCapture (loops s))]
                         else []);
  started_live : live s' = b :: live s
}.

(** * Properties *)

(** ** Counting in lists updated by index *)

Section list_facts.
Context {A : Type} (f : A -> bool).

Lemma filter_length_snoc (l : list A) (x : A) :
  length (List.filter f (l ++ [x]))
  = length (List.filter f l) + (if f x then 1 else 0).
Proof. rewrite List.filter_app, length_app. simpl. destruct (f x); simpl; lia. Qed.

Lemma filter_length_insert (l : list A) (i : nat) (x y : A) :
  l !! i = Some x ->
  length (List.filter f (<[i := y]> l)) + (if f x then 1 else 0)
  = length (List.filter f l) + (if f y then 1 else 0).
Proof.
  revert i. induction l as [|a l IH]; intros [|i] Hi; try done; simpl in Hi |- *.
  - simplify_eq. destruct (f x), (f y); simpl; lia.
  - specialize (IH i Hi). destruct (f a); simpl; lia.
Qed.

Lemma filter_length_lookup (l : list A) (i : nat) (x : A) :
  l !! i = Some x -> (if f x then 1 else 0) <= length (List.filter f l).
Proof.
  revert i. induction l as [|a l IH]; intros [|i] Hi; try done; simpl in Hi |- *.
  - simplify_eq. destruct (f x); simpl; lia.
  - specialize (IH i Hi). destruct (f a); simpl; lia.
Qed.

Lemma filter_length_insert_eq (l : list A) (i : nat) (x y : A) :
  l !! i = Some x ->
  length (List.filter f (<[i := y]> l))
  = length (List.filter f l) + (if f y then 1 else 0) - (if f x then 1 else 0).
Proof.
  intros Hi. pose proof (filter_length_insert l i x y Hi).
  pose proof (filter_length_lookup l i x Hi).
  destruct (f x), (f y); lia.
Qed.

Lemma filter_length_insert_le (l : list A) (i : nat) (y : A) :
  f y = false ->
  length (List.filter f (<[i := y]> l)) <= length (List.filter f l).
Proof.
  intros Hy. destruct (l !! i) as [x|] eqn:Hi.
  - rewrite (filter_length_insert_eq l i x y Hi), Hy. lia.
  - rewrite list_insert_ge; [lia|]. by apply lookup_ge_None.
Qed.

Lemma filter_length_zero (l : list A) :
  (forall x, In x l -> f x = false) -> length (List.filter f l) = 0.
Proof.
  induction l as [|a l IH]; intros H; simpl; [done|].
  rewrite (H a) by (by left). apply IH. intros x Hx. apply H. by right.
Qed.

End list_facts.

Lemma filter_ne_subset (b : nat) (l : list nat) x :
  x ∈ filter (λ y, y ≠ b) l -> x ∈ l.
Proof. rewrite list_elem_of_filter. tauto. Qed.


(** ** What one turn of the event loop can change *)

Lemma quiet_refl s : quiet s s.
Proof.
  split; [exists []; by rewrite app_nil_r | done | done | done | done].
Qed.

Lemma quiet_trans s1 s2 s3 : quiet s1 s2 -> quiet s2 s3 -> quiet s1 s3.
Proof.
  intros [[t1 [E1 B1]] L1 S1 T1 C1] [[t2 [E2 B2]] L2 S2 T2 C2]. split.
  - exists (t1 ++ t2). rewrite E2, E1, <- app_assoc. split; [done|].
    rewrite forallb_app. by rewrite B1, B2.
  - congruence.
  - auto.
  - intros l. specialize (T1 l). specialize (T2 l). lia.
  - auto.
Qed.

Lemma quiet_set_pool v s s' : quiet s s' -> quiet s (set_pool v s').
Proof. intros [? ? ? ? ?]. by split. Qed.

(** Unfolding the handlers on a state given by its fields, and splitting
    on what they inspect. *)
Ltac norm :=
  cbv beta iota zeta delta
    [step handle settle resume start_resume start_resolved start_catch
     start_session input_event_handler resize_handler navigate_handler
     disconnect_handler error_handler cleanup_resume cleanupBrowser
     cleanup_page cleanup_browser cleanup_done start_launch stopStreaming
     captureFrame_resume captureFrame input_resume zoom_resume
     resize_resume navigate_resume engine_settle fresh cdp_notify
     await spawn setTimeout clearTimeout emit log observe
     set_browser set_page set_cdpClient set_streaming set_streamTimeout
     set_connected set_pool set_timers set_loops set_next_handle set_live
     set_viewports set_listening set_trace
     browser page cdpClient streaming streamTimeout connected chromeExec
     pool timers loops next_handle live viewports listening trace
     scheduled_of in_flight in_flight_of
     fst snd andb].

Ltac split_cases :=
  repeat (norm; match goal with
          | |- context [match ?x with _ => _ end] =>
              lazymatch x with
              | context [match _ with _ => _ end] => fail
              | _ => destruct x
              end
          end); norm.

Ltac solve_trace :=
  first [ by (exists []; rewrite app_nil_r)
        | by (eexists; split; [rewrite <- ?app_assoc; reflexivity | reflexivity]) ].

Ltac solve_quiet :=
  split; norm;
  [ solve_trace
  | reflexivity
  | by intros
  | intros; first [ lia | by apply filter_length_insert_le ]
  | by intros ].

Lemma handle_quiet c s :
  quiet s (handle c s).1 /\ pool (handle c s).1 = pool s
  /\ is_capture (handle c s).2 = false.
Proof.
  destruct s, c; split_cases; (split; [solve_quiet | done]).
Qed.

Lemma engine_quiet o r s :
  quiet s (engine_settle o r s).2 /\ pool (engine_settle o r s).2 = pool s.
Proof.
  destruct s, o, r; split_cases; (split; [solve_quiet | done]).
Qed.

Lemma resume_quiet k o r h s :
  is_capture (Some (o, k)) = false ->
  goto_resolved (o, k) r = false ->
  quiet s (resume k o r h s).1 /\ pool (resume k o r h s).1 = pool s
  /\ is_capture (resume k o r h s).2 = false.
Proof.
  intros Hc Hg.
  destruct k as [[]| | | | | |]; try discriminate Hc;
    destruct s, r; try destruct o; try discriminate Hg;
    split_cases; (split; [solve_quiet | done]).
Qed.

Lemma settle_quiet t r s :
  is_capture (Some t) = false ->
  goto_resolved t r = false ->
  quiet s (settle t r s).1 /\ pool (settle t r s).1 = pool s
  /\ is_capture (settle t r s).2 = false.
Proof.
  intros Hc Hg. destruct t as [o k]. unfold settle. simpl.
  destruct (engine_settle o r s) as [h s1] eqn:E.
  destruct (engine_quiet o r s) as [Q1 P1]. rewrite E in Q1, P1. simpl in Q1, P1.
  destruct (resume_quiet k o r h s1 Hc Hg) as (Q2 & P2 & C2).
  split; [by eapply quiet_trans | split; [congruence | done]].
Qed.

(** ** Counting observations

    [frames], [sessions_started] and the other counters only look at
    the trace, and every turn appends to it. *)
Lemma count_app_trace f s s' tr :
  trace s' = trace s ++ tr -> count f s' = count f s + length (List.filter f tr).
Proof. unfold count. intros ->. by rewrite List.filter_app, length_app. Qed.

Lemma count_quiet f s s' :
  (forall o, benign o = true -> f o = false) ->
  quiet s s' -> count f s' = count f s.
Proof.
  intros Hf [[tr [E B]] _ _ _ _]. rewrite (count_app_trace f s s' tr E).
  rewrite filter_length_zero; [lia|].
  intros o Ho. apply Hf. rewrite forallb_forall in B. by apply B.
Qed.

Lemma frames_quiet s s' : quiet s s' -> frames s' = frames s.
Proof. apply count_quiet. intros o. unfold benign. by destruct (is_frame o). Qed.

Lemma sessions_quiet s s' : quiet s s' -> sessions_started s' = sessions_started s.
Proof.
  apply count_quiet. intros o. unfold benign.
  destruct (is_session_started o); [by rewrite andb_false_r | done].
Qed.

Lemma capture_of_capture l t : is_capture t = false -> is_capture_of l t = false.
Proof. by destruct t as [[o []]|]. Qed.

(** Every turn only appends to the trace. *)
Lemma step_trace e s : exists tr, trace (step e s) = trace s ++ tr.
Proof.
  destruct e as [c|tid r|t|c name].
  - simpl. destruct (handle c s) as [s1 k] eqn:E.
    destruct (handle_quiet c s) as [[[tr [Ht _]] _ _ _ _] _]. rewrite E in Ht.
    by exists tr.
  - simpl. destruct (pool s !! tid) as [[t|]|] eqn:Hl; try by (exists []; rewrite app_nil_r).
    destruct (settle t r s) as [s1 k] eqn:E.
    destruct (is_capture (Some t)) eqn:Hc.
    + destruct t as [o k0]. destruct k0; try discriminate Hc.
      unfold settle in E. simpl in E.
      destruct (engine_quiet o r s) as [[[tr [Ht _]] _ _ _ _] _].
      destruct (engine_settle o r s) as [h s0]. simpl in Ht. simplify_eq.
      destruct r; simpl; rewrite Ht, <- app_assoc; by eexists.
    + destruct (goto_resolved t r) eqn:Hg.
      * destruct t as [[] []], r; try discriminate Hg.
        destruct s. unfold settle in E. simpl in E. simplify_eq.
        split_cases; rewrite <- ?app_assoc; by eexists.
      * destruct (settle_quiet t r s Hc Hg) as [[[tr [Ht _]] _ _ _ _] _].
        rewrite E in Ht. by exists tr.
  - simpl. destruct (timers s !! t) as [[l|]|]; try by (exists []; rewrite app_nil_r).
    destruct s. split_cases; first [by eexists | by (exists []; rewrite app_nil_r)].
  - destruct s. simpl. split_cases; first [by eexists | by (exists []; rewrite app_nil_r)].
Qed.

Lemma run_trace es s : exists tr, trace (run es s) = trace s ++ tr.
Proof.
  revert s. induction es as [|e es IH]; intros s; simpl.
  - exists []. by rewrite app_nil_r.
  - destruct (IH (step e s)) as [tr2 H2]. destruct (step_trace e s) as [tr1 H1].
    exists (tr1 ++ tr2). by rewrite H2, H1, <- app_assoc.
Qed.

Lemma count_step_mono f e s : count f s <= count f (step e s).
Proof.
  destruct (step_trace e s) as [tr H]. rewrite (count_app_trace f _ _ _ H). lia.
Qed.

Lemma count_run_mono f es s : count f s <= count f (run es s).
Proof.
  destruct (run_trace es s) as [tr H]. rewrite (count_app_trace f _ _ _ H). lia.
Qed.

Lemma run_app es1 es2 s : run (es1 ++ es2) s = run es2 (run es1 s).
Proof. apply fold_left_app. Qed.

Lemma run_cons e es s : run (e :: es) s = run es (step e s).
Proof. done. Qed.

Lemma teardown_count c s :
  is_teardown c = true ->
  count is_cleanup_entry (step (Recv c) s) = count is_cleanup_entry s + 1.
Proof.
  intros Hc. destruct s as [b p c0 sg st cn ex pl tm lp nh lv vp ls tr0].
  unfold count.
  destruct c; try discriminate Hc; split_cases; simpl;
    rewrite ?List.filter_app, ?length_app; simpl; lia.
Qed.

(** ** Streaming that was stopped *)
(** What the continuation of a capture tick does to the counters. *)
Lemma capture_settle o l r s tid :
  pool s !! tid = Some (Some (o, KCapture l)) ->
  let s' := step (Settle tid r) s in
  sessions_started s' = sessions_started s /\
  loops s' = loops s /\
  (streaming s = false -> streaming s' = false) /\
  frames s' = frames s + (if r is Resolve _ then 1 else 0) /\
  pool s' = <[tid := None]> (pool s) /\
  (forall l0, scheduled_of l0 s' <= scheduled_of l0 s
              + (if r is Resolve _ then (if Nat.eqb l0 l then 1 else 0) else 0)) /\
  (if r is Reject _ then streaming s' = false else True).
Proof.
  intros Hl. cbv zeta. unfold step, pending in *. rewrite Hl. unfold settle. simpl.
  destruct (engine_quiet o r s) as [Q P].
  pose proof (frames_quiet _ _ Q) as QF. pose proof (sessions_quiet _ _ Q) as QS.
  destruct Q as [_ QL QB QT _].
  destruct (engine_settle o r s) as [h s0]. simpl in *.
  destruct s0. destruct r; simpl in *; unfold frames, sessions_started, count in *;
    simpl in *; rewrite ?List.filter_app, ?length_app; simpl; subst;
    (repeat split; try done; try lia).
  - intros l0. specialize (QT l0). unfold scheduled_of in *. simpl in *.
    rewrite filter_length_snoc. simpl. lia.
  - intros l0. specialize (QT l0). unfold scheduled_of in *. simpl in *. lia.
Qed.

(** While streaming is off and no session starts, a turn of the event
    loop sends a frame only for a capture that was already in flight. *)
Lemma step_stopped e s :
  streaming s = false ->
  sessions_started (step e s) = sessions_started s ->
  streaming (step e s) = false /\
  frames (step e s) + in_flight (step e s) <= frames s + in_flight s.
Proof.
  intros Hs Hn. destruct e as [c|tid r|t|c name].
  - simpl in *. destruct (handle_quiet c s) as (Q & P & C).
    destruct (handle c s) as [s1 k]. simpl in *.
    pose proof (frames_quiet _ _ Q) as QF. destruct Q as [_ _ QB _ _].
    split; [auto|]. unfold in_flight, frames, count in *. simpl.
    rewrite P, filter_length_snoc, C. lia.
  - destruct (pool s !! tid) as [[t|]|] eqn:Hl; try (simpl; rewrite Hl; split; [done|lia]).
    destruct (is_capture (Some t)) eqn:Hc.
    + destruct t as [o k0]. destruct k0; try discriminate Hc.
      destruct (capture_settle o loop r s tid Hl) as (_ & _ & B & F & P & _).
      split; [auto|]. rewrite F. unfold in_flight. rewrite P.
      pose proof (filter_length_insert is_capture _ _ _ None Hl). simpl in *.
      destruct r; lia.
    + destruct (goto_resolved t r) eqn:Hg.
      * exfalso. destruct t as [[] []], r; try discriminate Hg.
        simpl in Hn. rewrite Hl in Hn. destruct s.
        unfold settle in Hn. simpl in Hn. revert Hn.
        unfold sessions_started, count. split_cases; simpl;
          rewrite ?List.filter_app, ?length_app; simpl; lia.
      * simpl in *. rewrite Hl in *.
        destruct (settle_quiet t r s Hc Hg) as (Q & P & C).
        destruct (settle t r s) as [s1 k]. simpl in *.
        pose proof (frames_quiet _ _ Q) as QF. destruct Q as [_ _ QB _ _].
        split; [auto|]. unfold in_flight, frames, count in *. simpl. rewrite P.
        pose proof (filter_length_insert_le is_capture (pool s) tid k C). lia.
  - simpl. destruct (timers s !! t) as [[l|]|]; try (split; [done|lia]).
    destruct s. simpl in *. subst. unfold frames, count, in_flight.
    split_cases; simpl; (split; [done|lia]).
  - destruct s. simpl in *. subst. unfold frames, count, in_flight.
    split_cases; simpl; rewrite ?List.filter_app, ?length_app; simpl; (split; [done|lia]).
Qed.

Lemma run_stopped es s :
  streaming s = false ->
  sessions_started (run es s) = sessions_started s ->
  streaming (run es s) = false /\
  frames (run es s) + in_flight (run es s) <= frames s + in_flight s.
Proof.
  revert s. induction es as [|e es IH]; intros s Hs Hn; simpl in *.
  - split; [done|lia].
  - pose proof (count_step_mono is_session_started e s) as M1.
    pose proof (count_run_mono is_session_started es (step e s)) as M2.
    fold sessions_started in M1, M2.
    assert (sessions_started (step e s) = sessions_started s) as E1 by lia.
    destruct (step_stopped e s Hs E1) as [S1 F1].
    destruct (IH (step e s) S1 ltac:(lia)) as [S2 F2].
    split; [done|lia].
Qed.

Lemma stop_counters s :
  streaming (stopStreaming s) = false /\
  frames (stopStreaming s) = frames s /\
  in_flight (stopStreaming s) = in_flight s.
Proof.
  destruct s as [b p c0 sg [t|] cn ex pl tm lp nh lv vp ls tr0];
    unfold frames, count, in_flight; simpl;
    rewrite ?List.filter_app, ?length_app; simpl; (repeat split; try done; lia).
Qed.

(** ** One tick per capture loop *)
Lemma step_one_tick e s : one_tick_per_loop s -> one_tick_per_loop (step e s).
Proof.
  intros I l0. destruct (I l0) as [I1 I2]. unfold in_flight_of, scheduled_of in I1, I2.
  destruct e as [c|tid r|t|c name].
  - simpl. destruct (handle_quiet c s) as (Q & P & C).
    destruct (handle c s) as [s1 k]. simpl in *.
    destruct Q as [_ QL _ QT _]. specialize (QT l0).
    unfold in_flight_of, scheduled_of in *. simpl. rewrite P, filter_length_snoc, QL.
    rewrite (capture_of_capture l0 k C). lia.
  - destruct (pool s !! tid) as [[t|]|] eqn:Hl;
      try (simpl; unfold pending in *; rewrite Hl; done).
    destruct (is_capture (Some t)) eqn:Hc.
    + destruct t as [o k0]. destruct k0 as [| |l| | | |]; try discriminate Hc.
      destruct (capture_settle o l r s tid Hl) as (_ & L & _ & _ & P & T & _).
      specialize (T l0). unfold in_flight_of, scheduled_of in *. rewrite P, L.
      pose proof (filter_length_insert (is_capture_of l0) _ _ _ None Hl) as F.
      simpl in F.
      destruct (I l) as [_ Il].
      pose proof (filter_length_lookup (is_capture_of l) _ _ _ Hl) as G.
      simpl in G. rewrite Nat.eqb_refl in G.
      destruct (Nat.eqb_spec l0 l) as [->|Hne]; destruct r; unfold pending in *; lia.
    + destruct (goto_resolved t r) eqn:Hg.
      * destruct t as [[] []], r; try discriminate Hg.
        simpl. unfold pending in *. rewrite Hl. unfold settle. simpl.
        unfold captureFrame. simpl.
        assert (forall q : list (option (op * kont)),
                  length (List.filter (is_capture_of l0) (<[tid:=None]> q))
                  <= length (List.filter (is_capture_of l0) q)) as Hi
          by (intros q; by apply filter_length_insert_le).
        unfold in_flight_of, scheduled_of in *.
        destruct (page s), (browser s), (connected s); simpl;
          try (specialize (Hi (pool s)); unfold pending in *; lia).
        specialize (Hi (pool s ++ [Some (Screenshot n, KCapture (loops s))])).
        rewrite filter_length_snoc in Hi. simpl in Hi.
        destruct (Nat.eqb_spec l0 (loops s)) as [->|Hne]; unfold pending in *; lia.
      * simpl. unfold pending in *. rewrite Hl.
        destruct (settle_quiet t r s Hc Hg) as (Q & P & C).
        destruct (settle t r s) as [s1 k]. simpl in *.
        destruct Q as [_ QL _ QT _]. specialize (QT l0).
        unfold in_flight_of, scheduled_of in *. simpl. rewrite P, QL.
        pose proof (filter_length_insert_le (is_capture_of l0) (pool s) tid k
                      (capture_of_capture l0 k C)). unfold pending in *. lia.
  - simpl. destruct (timers s !! t) as [[l|]|] eqn:Ht; try done.
    pose proof (filter_length_insert (is_timer_of l0) _ _ _ None Ht) as F.
    pose proof (filter_length_lookup (is_timer_of l) _ _ _ Ht) as G.
    simpl in F, G. rewrite Nat.eqb_refl in G.
    destruct (I l) as [_ Il].
    unfold captureFrame, in_flight_of, scheduled_of in *. simpl.
    destruct (page s), (browser s), (streaming s), (connected s); simpl;
      rewrite ?filter_length_snoc; simpl;
      destruct (Nat.eqb_spec l0 l) as [->|Hne]; unfold pending in *; lia.
  - simpl. unfold cdp_notify. unfold in_flight_of, scheduled_of in *.
    repeat case_match; simpl; done.
Qed.

Lemma run_one_tick es s : one_tick_per_loop s -> one_tick_per_loop (run es s).
Proof.
  revert s. induction es as [|e es IH]; intros s I; simpl; [done|].
  apply IH. by apply step_one_tick.
Qed.

Lemma init_one_tick exec : one_tick_per_loop (init exec).
Proof. intros l. unfold in_flight_of, scheduled_of. simpl. split; lia. Qed.

(** ** Handlers run on their own *)
Lemma run_alone_step fuel oracle i s t :
  run_alone (S fuel) oracle i (s, Some t)
  = run_alone fuel oracle (S i) (settle t (oracle i t.1) s).
Proof. done. Qed.

Lemma run_alone_done fuel oracle i s : run_alone fuel oracle i (s, None) = (s, None).
Proof. by destruct fuel. Qed.

Ltac alone_norm :=
  cbv beta iota zeta delta
    [settle resume start_resume start_resolved start_catch
     cleanup_resume cleanupBrowser cleanup_page cleanup_browser cleanup_done
     start_launch stopStreaming captureFrame engine_settle fresh
     await spawn clearTimeout emit log observe
     set_browser set_page set_cdpClient set_streaming set_streamTimeout
     set_connected set_pool set_timers set_loops set_next_handle set_live
     set_viewports set_listening set_trace
     browser page cdpClient streaming streamTimeout connected chromeExec
     pool timers loops next_handle live viewports listening trace
     fst snd andb].

Ltac cleanup_norm :=
  cbv beta iota zeta delta
    [settle resume cleanup_resume cleanupBrowser cleanup_page cleanup_browser
     engine_settle await observe
     set_browser set_page set_cdpClient set_live set_trace
     browser page cdpClient streaming streamTimeout connected chromeExec
     pool timers loops next_handle live viewports listening trace
     fst snd].

Ltac cleanup_fin :=
  eexists; split; [lia|];
  split;
  [ idtac
  | intros n; simpl Nat.add;
    repeat (cleanup_norm; rewrite run_alone_step); cleanup_norm; reflexivity ];
  split; [reflexivity
         | eexists; split; [rewrite <- ?app_assoc; reflexivity | reflexivity]
         | reflexivity
         | simpl; eauto using filter_ne_subset].

(** [cleanupBrowser] run on its own: after at most three awaits the
    handles are dropped and control is back at the caller. *)
Lemma cleanup_alone who s oracle i :
  exists j s', j <= 3 /\ released s s' /\
    forall n, run_alone (j + n) oracle i (cleanupBrowser who s)
              = run_alone n oracle (j + i) (cleanup_done who s').
Proof.
  destruct s as [[b|] [p|] [c|] sg st cn ex pl tm lp nh lv vp ls tr0].
  all: first [exists 3; cleanup_fin | exists 2; cleanup_fin
             | exists 1; cleanup_fin | exists 0; cleanup_fin].
Qed.

Ltac oracle_answer orc HR HG :=
  match goal with
  | |- context [orc ?j ?o] =>
      first
        [ rewrite (HG j o eq_refl)
        | let d := fresh "d" in let E := fresh "E" in
          destruct (HR j o _ eq_refl ltac:(lia)) as [d E]; rewrite E; clear E ]
  end.

Ltac failed_fin :=
  split;
  [ reflexivity
  | eexists; split; [rewrite <- ?app_assoc; reflexivity | reflexivity]
  | reflexivity
  | simpl ].

Lemma try_failure_alone n a s oracle i m err :
  (browser s, page s, cdpClient s) = (None, None, None) ->
  n < 8 ->
  fails_at n oracle err ->
  exists s', run_alone (11 + m) oracle i (start_launch a s) = (s', None)
             /\ failed err s s'.
Proof.
  intros Hh Hn [HR HG].
  destruct s as [b p c sg st cn ex pl tm lp nh lv vp ls tr0]. simpl in Hh.
  simplify_eq. simpl Nat.add. alone_norm.
  destruct n as [|[|[|[|[|[|[|[|n]]]]]]]]; [..|lia];
    destruct st;
    repeat (rewrite run_alone_step; cbv beta iota delta [fst snd];
            try oracle_answer oracle HR HG; alone_norm);
    rewrite run_alone_done; eexists; (split; [reflexivity|]); failed_fin;
    intros x Hx;
    try (apply list_elem_of_filter in Hx as [Hne Hx];
         apply elem_of_cons in Hx as [->|Hx]);
    done.
Qed.

(** The turn in which an awaited call of the try block is rejected: the
    catch block reports the failure, stops streaming and starts to
    release the handles the connection holds at that moment. *)
Lemma start_rejection_turn s tid o a err :
  pool s !! tid = Some (Some (o, KStart a)) ->
  let s1 := step (Settle tid (Reject err)) s in
  (exists tr, trace s1 = trace s ++ tr /\
     List.filter is_emit tr
     = [Emit (EvError ("Failed to start session: " +:+ err_text err))]) /\
  (streaming s1, streamTimeout s1) = (false, None) /\
  pool s1 !! tid
  = Some (option_map (λ c, (c, KCleanup FromCatch)) (head (release_calls s))).
Proof.
  intros Hl. cbv zeta. unfold step, pending in *. rewrite Hl.
  assert (tid < length (pool s)) as Hlt by (by eapply lookup_lt_Some).
  destruct s as [b p c sg st cn ex pl tm lp nh lv vp ls tr0].
  simpl in Hlt. unfold release_calls.
  destruct o, c, p, b, st; split_cases; simpl;
    (split; [eexists; split; [rewrite <- ?app_assoc; reflexivity | reflexivity]|]);
    (split; [reflexivity|]);
    by rewrite list_lookup_insert_eq.
Qed.

Lemma stop_then_release s s1 :
  released (stopStreaming s) s1 ->
  (browser s1, page s1, cdpClient s1) = (None, None, None) /\
  (exists tr, trace s1 = trace s ++ tr /\ List.filter is_emit tr = []) /\
  (forall x, x ∈ live s1 -> x ∈ live s).
Proof.
  intros [Hh [tr [Ht He]] _ Hl]. split; [done|]. split.
  - exists (Enter StopStreaming :: tr). split; [|done].
    rewrite Ht. destruct s as [b p c sg [t|] cn ex pl tm lp nh lv vp ls tr0];
      simpl; by rewrite <- app_assoc.
  - intros x Hx. apply Hl in Hx.
    by destruct s as [b p c sg [t|] cn ex pl tm lp nh lv vp ls tr0].
Qed.











(** * The specification's claims *)

(** ** C1: one engine handle at a time *)




(** ** C2: frames after a stop *)

(** C2, counterexample.  [stopStreaming] leaves a screenshot that is in
    flight alone; when it resolves, its frame is sent although streaming
    is off and no session has started since. *)
Lemma stale_frame_after_stop :
  let s := stopStreaming streaming_a in
  streaming s = false /\ streamTimeout s = None /\
  trace (step (Settle 1 (Resolve "stale")) s) = trace s ++ [Emit (Frame "stale")].
Proof. vm_compute. done. Qed.

(** C2, as the code has it.  Once [stopStreaming] has run, and for as
    long as no session-started event is sent, streaming stays off, no
    new capture is begun, and a frame is sent only for a capture that
    was in flight at the stop, one frame each at most. *)
Theorem frames_after_stop_bounded s es :
  let s0 := stopStreaming s in
  sessions_started (run es s0) = sessions_started s0 ->
  streaming (run es s0) = false /\
  frames (run es s0) + in_flight (run es s0) <= frames s + in_flight s.
Proof.
  intros s0 Hn. destruct (stop_counters s) as (S0 & F0 & I0).
  destruct (run_stopped es s0 S0 Hn) as [S1 F1]. split; [done|].
  subst s0. lia.
Qed.

Lemma frames_after_stop_bounded_witness :
  let s0 := stopStreaming streaming_a in
  let es := [Settle 1 (Resolve "stale"); Fire 0] in
  streaming (run es s0) = false /\
  frames (run es s0) + in_flight (run es s0) <= frames streaming_a + in_flight streaming_a.
Proof.
  apply (frames_after_stop_bounded streaming_a [Settle 1 (Resolve "stale"); Fire 0]).
  vm_compute. reflexivity.
Defined.

(** ** C3: the capture loop is gated by its own completion *)

(** C3, counterexample.  A restart does not end the loop of the session
    before it: with the old screenshot still in flight, the new
    session's first tick is in flight as well. *)
Lemma two_ticks_in_flight_after_restart :
  pool restarted = [None; Some (Screenshot 1, KCapture 0); None;
                    Some (Screenshot 4, KCapture 1)]
  /\ in_flight restarted = 2.
Proof. vm_compute. done. Qed.

(** C3, as the code has it.  In every run of a connection, each capture
    loop (one is created by each successful start-session) has at most
    one tick in flight or scheduled: the next tick is scheduled only
    when the screenshot of the previous one has settled. *)
Theorem one_tick_per_capture_loop exec es l :
  in_flight_of l (run es (init exec)) + scheduled_of l (run es (init exec)) <= 1.
Proof.
  destruct (run_one_tick es (init exec) (init_one_tick exec) l) as [H _]. exact H.
Qed.

(** ** C4: resize with missing or zero sizes *)

(** C4, counterexample.  On a session at 800x600, [resize(0, 0)] sets
    the viewport to the defaults 1280x720. *)
Lemma resize_zero_falls_back_to_defaults :
  page streaming_a = Some 1 /\
  viewports streaming_a !! 1 = Some (800, 600)%Z /\
  viewports (run [Recv (Resize (Some 0%Z) (Some 0%Z)); Settle 2 ok] streaming_a) !! 1
  = Some (1280, 720)%Z.
Proof. vm_compute. done. Qed.

(** C4, as the code has it.  On a session with a page, a resize asks the
    engine for [width || 1280] by [height || 720]: a missing or zero
    size becomes the default, every other number (a negative one too) is
    passed on as given; when the call resolves that is the viewport of
    the page. *)
Theorem resize_sets_viewport_or_default s p w h d :
  page s = Some p ->
  let vw := num_or w DEFAULT_WIDTH in
  let vh := num_or h DEFAULT_HEIGHT in
  let s1 := step (Recv (Resize w h)) s in
  trace s1 = trace s ++ [Log (LogResizing vw vh); Call (SetViewport p vw vh)] /\
  viewports (step (Settle (length (pool s)) (Resolve d)) s1) !! p = Some (vw, vh).
Proof.
  intros Hp. destruct s. simpl in *. subst. simpl. split.
  - by rewrite <- app_assoc.
  - rewrite list_lookup_middle by done. simpl. apply lookup_insert_eq.
Qed.

Lemma resize_sets_viewport_or_default_witness :
  let s1 := step (Recv (Resize (Some (-1)%Z) None)) streaming_a in
  trace s1 = trace streaming_a
             ++ [Log (LogResizing (-1) 720); Call (SetViewport 1 (-1) 720)] /\
  viewports (step (Settle 2 ok) s1) !! 1 = Some (-1, 720)%Z.
Proof.
  exact (resize_sets_viewport_or_default streaming_a 1 (Some (-1)%Z) None "" eq_refl).
Defined.

(** ** C5: start-session without a url *)

(** C5.  A start-session whose url is empty or absent sends one [error]
    event and does nothing else: no engine call is issued, the handles,
    the streaming flag, the timers and the live browsers are what they
    were. *)
Theorem start_session_without_url u w h s :
  falsy_str u = true ->
  let s' := step (Recv (StartSession u w h)) s in
  trace s' = trace s ++ [Emit (EvError "No URL provided")] /\
  pool s' = pool s ++ [None] /\
  (browser s', page s', cdpClient s') = (browser s, page s, cdpClient s) /\
  (streaming s', streamTimeout s', timers s') = (streaming s, streamTimeout s, timers s) /\
  live s' = live s.
Proof.
  intros Hu. simpl. unfold start_session. rewrite Hu. done.
Qed.

Lemma start_session_without_url_witness :
  let s' := step (Recv (StartSession (Some "") None None)) streaming_a in
  trace s' = trace streaming_a ++ [Emit (EvError "No URL provided")] /\
  pool s' = pool streaming_a ++ [None] /\
  (browser s', page s', cdpClient s') = (Some 0, Some 1, Some 2) /\
  (streaming s', streamTimeout s', timers s') = (true, None, []) /\
  live s' = [0].
Proof.
  exact (start_session_without_url (Some "") None None streaming_a eq_refl).
Defined.

(** ** C6: a start that fails *)

(** C6, counterexample.  Two start-session handlers overlap; the
    session of the second is streaming when the navigation of the first
    is rejected.  The catch block of the first releases the handles the
    connection holds, which are those of the second session, and the
    browser the failed attempt launched stays live. *)
Lemma overlapped_failure_releases_the_other_session :
  let s := overlapped_b_streaming in
  let s' := run failing_overlap s in
  (browser s, page s, cdpClient s, live s) = (Some 3, Some 4, Some 5, [3; 0]) /\
  pool s !! 0 = Some (Some (Goto 1 (Some "https://a.example") "networkidle2",
                            KStart {| url := Some "https://a.example";
                                      width := Some 800%Z; height := Some 600%Z |})) /\
  trace s' = trace s
             ++ [Log (LogSessionStartError "timeout"); Log LogTip;
                 Emit (EvError "Failed to start session: timeout");
                 Enter StopStreaming; Enter CleanupBrowser;
                 Call (CdpDetach 5); Call (PageClose 4); Call (BrowserClose 3)] /\
  pool s' !! 0 = Some None /\
  (browser s', page s', cdpClient s') = (None, None, None) /\
  live s' = [0].
Proof. vm_compute. done. Qed.

(** C6, as the code has it.  In every state, the turn in which an
    awaited call of the try block is rejected sends exactly one event,
    the [error] carrying the cause, switches streaming off with no
    timer pending, and starts [cleanupBrowser] on the handles the
    connection holds at that moment.  When the handler runs on its own
    and the engine rejects one of the eight calls of the try block (the
    launch, the navigation or any call between them) after resolving
    those before it, the handler ends after at most 14 awaits with
    [browser], [page] and [cdpClient] null and no browser it launched
    left live. *)
Theorem start_failure_reported_once s tid o a err u w h s0 oracle n :
  (pool s !! tid = Some (Some (o, KStart a)) ->
   let s1 := step (Settle tid (Reject err)) s in
   (exists tr, trace s1 = trace s ++ tr /\
      List.filter is_emit tr
      = [Emit (EvError ("Failed to start session: " +:+ err_text err))]) /\
   (streaming s1, streamTimeout s1) = (false, None) /\
   pool s1 !! tid
   = Some (option_map (λ c, (c, KCleanup FromCatch)) (head (release_calls s))))
  /\
  (falsy_str u = false -> n < 8 -> fails_at n oracle err ->
   let st := run_alone 14 oracle 0 (start_session u w h s0) in
   st.2 = None /\
   (exists tr, trace st.1 = trace s0 ++ tr /\
      List.filter is_emit tr
      = [Emit (EvError ("Failed to start session: " +:+ err_text err))]) /\
   (browser st.1, page st.1, cdpClient st.1) = (None, None, None) /\
   (streaming st.1, streamTimeout st.1) = (false, None) /\
   (forall x, x ∈ live st.1 -> x ∈ live s0)).
Proof.
  split; [apply start_rejection_turn|].
  intros Hu Hn Hf. cbv zeta. unfold start_session. rewrite Hu.
  set (a0 := {| url := u; width := w; height := h |}).
  destruct (cleanup_alone (FromStart a0) (stopStreaming s0) oracle 0)
    as (j & s1 & Hj & R & E).
  destruct (stop_then_release s0 s1 R) as (Hh & (tr1 & Ht1 & He1) & Hl1).
  replace 14 with (j + (11 + (3 - j))) by lia. rewrite E. simpl cleanup_done.
  destruct (try_failure_alone n a0 s1 oracle (j + 0) (3 - j) err Hh Hn Hf)
    as (s' & -> & [Fh (tr2 & Ht2 & He2) Fs Fl]).
  simpl. split; [done|]. split; [|by auto].
  exists (tr1 ++ tr2). rewrite Ht2, Ht1, <- app_assoc. split; [done|].
  by rewrite List.filter_app, He1, He2.
Qed.

Lemma start_failure_reported_once_witness :
  (let s1 := step (Settle 0 (Reject timeout_err)) overlapped_b_streaming in
   (exists tr, trace s1 = trace overlapped_b_streaming ++ tr /\
      List.filter is_emit tr = [Emit (EvError "Failed to start session: timeout")]) /\
   (streaming s1, streamTimeout s1) = (false, None) /\
   pool s1 !! 0 = Some (Some (CdpDetach 5, KCleanup FromCatch)))
  /\
  (let st := run_alone 14 unreachable 0
               (start_session (Some "https://a.example") None None (init None)) in
   st.2 = None /\
   (exists tr, trace st.1 = trace (init None) ++ tr /\
      List.filter is_emit tr = [Emit (EvError "Failed to start session: timeout")]) /\
   (browser st.1, page st.1, cdpClient st.1) = (None, None, None) /\
   (streaming st.1, streamTimeout st.1) = (false, None) /\
   (forall x, x ∈ live st.1 -> x ∈ live (init None))).
Proof.
  destruct (start_failure_reported_once overlapped_b_streaming 0
              (Goto 1 (Some "https://a.example") "networkidle2")
              {| url := Some "https://a.example";
                 width := Some 800%Z; height := Some 600%Z |}
              timeout_err (Some "https://a.example") None None (init None)
              unreachable 7) as [H1 H2].
  split.
  - apply H1. vm_compute. reflexivity.
  - apply H2; [reflexivity | lia |]. split.
    + intros i o m Ho Hm. destruct o; simpl in Ho; simplify_eq; try lia; by exists "".
    + intros i o Ho. by destruct o.
Defined.

(** ** C7: a capture that fails *)

(** C7, counterexample.  After a restart two loops are running; when the
    screenshot of one is rejected, the screenshot of the other still
    sends its frame, with no start-session in between. *)
Lemma frame_after_capture_failure :
  trace (run [Settle 3 (Reject (Raw "closed")); Settle 1 (Resolve "late")] restarted)
  = trace restarted ++ [Log (LogFrameCaptureError "closed"); Emit (Frame "late")].
Proof. vm_compute. done. Qed.

(** C7, as the code has it.  A rejected screenshot is logged, sends no
    frame, switches streaming off and arms no timer.  From then on, for
    as long as no session-started event is sent, no new capture is
    begun; frames are sent only for the other captures that were in
    flight at the failure. *)
Theorem capture_failure_ends_loop s tid p l err es :
  pool s !! tid = Some (Some (Screenshot p, KCapture l)) ->
  let s1 := step (Settle tid (Reject err)) s in
  trace s1 = trace s ++ [Log (LogFrameCaptureError (err_text err))] /\
  streaming s1 = false /\
  (timers s1, streamTimeout s1) = (timers s, streamTimeout s) /\
  pool s1 = <[tid := None]> (pool s) /\
  (sessions_started (run es s1) = sessions_started s1 ->
   streaming (run es s1) = false /\
   frames (run es s1) + in_flight (run es s1) + 1 <= frames s + in_flight s).
Proof.
  intros Hl s1.
  assert (trace s1 = trace s ++ [Log (LogFrameCaptureError (err_text err))]
          /\ streaming s1 = false
          /\ (timers s1, streamTimeout s1) = (timers s, streamTimeout s)
          /\ pool s1 = <[tid := None]> (pool s)) as (Ht & Hs & Hm & Hp).
  { subst s1. unfold step, pending in *. rewrite Hl. by destruct s. }
  repeat (split; [done|]). intros Hn.
  destruct (run_stopped es s1 Hs Hn) as [S1 F1]. split; [done|].
  pose proof (filter_length_insert is_capture _ _ _ None Hl) as F. simpl in F.
  assert (frames s1 = frames s) as Ef.
  { unfold frames, count. rewrite Ht, List.filter_app, length_app. simpl. lia. }
  assert (in_flight s1 + 1 = in_flight s) as Ei.
  { unfold in_flight. rewrite Hp. unfold pending in *. lia. }
  lia.
Qed.

Lemma capture_failure_ends_loop_witness :
  let s1 := step (Settle 1 (Reject (Raw "closed"))) streaming_a in
  let es := [Fire 0; Recv (Resize None None)] in
  trace s1 = trace streaming_a ++ [Log (LogFrameCaptureError "closed")] /\
  streaming s1 = false /\
  (timers s1, streamTimeout s1) = (timers streaming_a, streamTimeout streaming_a) /\
  pool s1 = <[1 := None]> (pool streaming_a) /\
  (sessions_started (run es s1) = sessions_started s1 ->
   streaming (run es s1) = false /\
   frames (run es s1) + in_flight (run es s1) + 1
   <= frames streaming_a + in_flight streaming_a).
Proof.
  apply (capture_failure_ends_loop streaming_a 1 1 0 (Raw "closed")
           [Fire 0; Recv (Resize None None)]).
  vm_compute. reflexivity.
Defined.

(** ** C8: input events *)



(** ** C9: close and error on the same connection *)

(** C9, counterexample.  A socket error followed by the disconnect of
    the same connection runs the teardown twice; the CDP session, not
    yet released by the first, is asked to detach a second time. *)
Lemma close_and_error_destroy_twice :
  trace (run [Recv (SocketError (Raw "reset")); Recv Disconnect] streaming_a)
  = trace streaming_a
    ++ [Log (LogSocketError (Raw "reset")); Enter StopStreaming;
        Enter CleanupBrowser; Call (CdpDetach 2);
        Log LogUserDisconnected; Enter StopStreaming;
        Enter CleanupBrowser; Call (CdpDetach 2)].
Proof. vm_compute. done. Qed.

(** C9, as the code has it.  There is no guard: a disconnect enters
    [cleanupBrowser] once and a socket error enters it once, in every
    state; a run in which both occur, in either order, enters it at
    least twice. *)
Theorem teardown_entered_for_every_close_and_error s err es1 es2 es3 :
  count is_cleanup_entry (step (Recv Disconnect) s) = count is_cleanup_entry s + 1 /\
  count is_cleanup_entry (step (Recv (SocketError err)) s)
  = count is_cleanup_entry s + 1 /\
  count is_cleanup_entry s + 2
  <= count is_cleanup_entry
       (run (es1 ++ Recv Disconnect :: es2 ++ Recv (SocketError err) :: es3) s) /\
  count is_cleanup_entry s + 2
  <= count is_cleanup_entry
       (run (es1 ++ Recv (SocketError err) :: es2 ++ Recv Disconnect :: es3) s).
Proof.
  split; [by apply teardown_count|]. split; [by apply teardown_count|].
  assert (forall c1 c2, is_teardown c1 = true -> is_teardown c2 = true ->
            count is_cleanup_entry s + 2
            <= count is_cleanup_entry
                 (run (es1 ++ Recv c1 :: es2 ++ Recv c2 :: es3) s)) as H.
  { intros c1 c2 H1 H2. rewrite run_app, run_cons, run_app, run_cons.
    pose proof (count_run_mono is_cleanup_entry es1 s).
    pose proof (teardown_count c1 (run es1 s) H1).
    pose proof (count_run_mono is_cleanup_entry es2 (step (Recv c1) (run es1 s))).
    pose proof (teardown_count c2 (run es2 (step (Recv c1) (run es1 s))) H2).
    pose proof (count_run_mono is_cleanup_entry es3
                  (step (Recv c2) (run es2 (step (Recv c1) (run es1 s))))).
    lia. }
  split; by apply H.
Qed.

(** ** C10: cleanupBrowser is idempotent *)

(** C10.  Run on its own from any state, for a caller that it returns
    to, [cleanupBrowser] ends within three awaits (whatever the engine
    answers) with [cdpClient], [page] and [browser] null; called again
    it issues no engine call and leaves the state as it is (the trace
    records the entry only). *)
Theorem cleanupBrowser_idempotent who oracle s :
  returns_to_caller who = true ->
  let st := run_alone 3 oracle 0 (cleanupBrowser who s) in
  st.2 = None /\
  (cdpClient st.1, page st.1, browser st.1) = (None, None, None) /\
  cleanupBrowser who st.1 = (observe (Enter CleanupBrowser) st.1, None).
Proof.
  intros Hw. destruct who; [discriminate Hw| |];
    destruct s as [[b|] [p|] [c|] ? ? ? ? ? ? ? ? ? ? ? ?];
    cbv -[app]; repeat split; reflexivity.
Qed.

Lemma cleanupBrowser_idempotent_witness :
  let st := run_alone 3 (fun _ _ => Reject (Raw "gone")) 0
              (cleanupBrowser FromTeardown streaming_a) in
  st.2 = None /\
  (cdpClient st.1, page st.1, browser st.1) = (None, None, None) /\
  cleanupBrowser FromTeardown st.1 = (observe (Enter CleanupBrowser) st.1, None).
Proof.
  exact (cleanupBrowser_idempotent FromTeardown (fun _ _ => Reject (Raw "gone"))
           streaming_a eq_refl).
Defined.

(** * Further properties of the handlers *)

(** ** input-event, resize and navigate *)

(** Without a page, an input-event, a resize or a navigate returns at
    once: no call, no log line, no event. *)
Theorem page_commands_without_page_do_nothing c s :
  is_page_command c = true ->
  page s = None ->
  step (Recv c) s = set_pool (pool s ++ [None]) s.
Proof.
  intros Hc Hp. destruct c; try discriminate Hc; simpl;
    unfold input_event_handler, resize_handler, navigate_handler;
    by rewrite Hp.
Qed.

Lemma page_commands_without_page_do_nothing_witness :
  step (Recv (Navigate (Some "https://b.example"))) (init None)
  = set_pool (pool (init None) ++ [None]) (init None).
Proof.
  exact (page_commands_without_page_do_nothing
           (Navigate (Some "https://b.example")) (init None) eq_refl eq_refl).
Defined.

(** Whatever the engine answers, an input-event, resize or navigate
    handler run on its own ends after at most one await; it sends
    nothing to the client and leaves the handles, the streaming flag,
    the timers, the other handlers and the live browsers as they were. *)
Theorem page_commands_leave_session_alone c s oracle :
  is_page_command c = true ->
  let st := run_alone 1 oracle 0 (handle c s) in
  st.2 = None /\
  (exists tr, trace st.1 = trace s ++ tr /\ List.filter is_emit tr = []) /\
  (browser st.1, page st.1, cdpClient st.1) = (browser s, page s, cdpClient s) /\
  (streaming st.1, streamTimeout st.1, timers st.1)
  = (streaming s, streamTimeout s, timers s) /\
  (pool st.1, live st.1, connected st.1) = (pool s, live s, connected s).
Proof.
  intros Hc.
  destruct s as [b p c0 sg st0 cn ex pl tm lp nh lv vp ls tr0].
  destruct c as [| e | w h | u | |]; try discriminate Hc; cbv zeta.
  - unfold handle, input_event_handler. simpl page.
    destruct p as [p|]; [|by (repeat split; try done; exists []; rewrite app_nil_r)].
    simpl cdpClient.
    repeat match goal with
    | |- context [String.eqb ?a ?b] => destruct (String.eqb a b)
    | |- context [match c0 with _ => _ end] => destruct c0
    end;
    try (by (repeat split; try done; exists []; rewrite app_nil_r));
    unfold await; rewrite run_alone_step; simpl;
    destruct (oracle 0 _); simpl;
    (repeat split; try done; eexists; split;
       [rewrite <- ?app_assoc; reflexivity | reflexivity]).
  - unfold handle, resize_handler. simpl page.
    destruct p as [p|]; [|by (repeat split; try done; exists []; rewrite app_nil_r)].
    unfold await; rewrite run_alone_step; simpl;
    destruct (oracle 0 _); simpl;
    (repeat split; try done; eexists; split;
       [rewrite <- ?app_assoc; reflexivity | reflexivity]).
  - unfold handle, navigate_handler. simpl page.
    destruct p as [p|]; [|by (repeat split; try done; exists []; rewrite app_nil_r)].
    unfold await; rewrite run_alone_step; simpl;
    destruct (oracle 0 _); simpl;
    (repeat split; try done; eexists; split;
       [rewrite <- ?app_assoc; reflexivity | reflexivity]).
Qed.

Lemma page_commands_leave_session_alone_witness :
  let st := run_alone 1 unreachable 0
              (handle (Navigate (Some "https://b.example")) streaming_a) in
  st.2 = None /\
  (exists tr, trace st.1 = trace streaming_a ++ tr /\ List.filter is_emit tr = []) /\
  (browser st.1, page st.1, cdpClient st.1)
  = (browser streaming_a, page streaming_a, cdpClient streaming_a) /\
  (streaming st.1, streamTimeout st.1, timers st.1)
  = (streaming streaming_a, streamTimeout streaming_a, timers streaming_a) /\
  (pool st.1, live st.1, connected st.1)
  = (pool streaming_a, live streaming_a, connected streaming_a).
Proof.
  exact (page_commands_leave_session_alone
           (Navigate (Some "https://b.example")) streaming_a unreachable eq_refl).
Defined.

Lemma num_or_nonzero v d : d <> 0%Z -> num_or v d <> 0%Z.
Proof.
  intros Hd. destruct v as [n|]; simpl; [|done].
  destruct (Z.eqb_spec n 0); done.
Qed.

(** A resize on a session with a page never asks the engine for a zero
    width or height. *)
Theorem resize_never_requests_zero w0 h0 s p :
  page s = Some p ->
  exists w h, (handle (Resize w0 h0) s).2 = Some (SetViewport p w h, KResize)
              /\ w <> 0%Z /\ h <> 0%Z.
Proof.
  intros Hp. simpl. unfold resize_handler. rewrite Hp. simpl.
  eexists _, _. split; [reflexivity|]. split; by apply num_or_nonzero.
Qed.

Lemma resize_never_requests_zero_witness :
  exists w h, (handle (Resize (Some 0%Z) None) streaming_a).2
              = Some (SetViewport 1 w h, KResize)
              /\ w <> 0%Z /\ h <> 0%Z.
Proof.
  exact (resize_never_requests_zero (Some 0%Z) None streaming_a 1 eq_refl).
Defined.

(** ** The capture loop *)

(** The timer cancelled by [stopStreaming] starts no tick if it fires
    all the same. *)
Theorem cancelled_timer_does_nothing s t :
  streamTimeout s = Some t ->
  step (Fire t) (stopStreaming s) = stopStreaming s.
Proof.
  intros Ht. unfold stopStreaming. simpl. rewrite Ht. simpl.
  destruct (decide (t < length (timers s))) as [Hlt|Hge].
  - by rewrite list_lookup_insert_eq.
  - rewrite list_insert_ge by lia.
    by rewrite (proj2 (lookup_ge_None (timers s) t)) by lia.
Qed.

Lemma cancelled_timer_does_nothing_witness :
  step (Fire 0) (stopStreaming armed_a) = stopStreaming armed_a.
Proof. exact (cancelled_timer_does_nothing armed_a 0 eq_refl). Defined.

(** A tick that finds streaming off, the socket closed, or the page or
    the browser gone returns without a screenshot and is not
    rescheduled. *)
Theorem tick_on_stopped_session_ends_loop s t l :
  timers s !! t = Some (Some l) ->
  streaming s = false \/ connected s = false \/ page s = None \/ browser s = None ->
  step (Fire t) s = clearTimeout t s
  /\ scheduled_of l (step (Fire t) s) + 1 = scheduled_of l s.
Proof.
  intros Ht Hc. simpl. rewrite Ht.
  assert (captureFrame l (clearTimeout t s) = clearTimeout t s) as ->.
  { unfold captureFrame. simpl.
    destruct (page s), (browser s), (streaming s), (connected s); try done;
      destruct Hc as [?|[?|[?|?]]]; done. }
  split; [done|]. unfold scheduled_of. simpl.
  pose proof (filter_length_insert (is_timer_of l) _ _ _ None Ht) as F.
  simpl in F. rewrite Nat.eqb_refl in F. lia.
Qed.

Lemma tick_on_stopped_session_ends_loop_witness :
  let s := set_connected false armed_a in
  step (Fire 0) s = clearTimeout 0 s
  /\ scheduled_of 0 (step (Fire 0) s) + 1 = scheduled_of 0 s.
Proof.
  apply (tick_on_stopped_session_ends_loop (set_connected false armed_a) 0 0).
  - reflexivity.
  - right. left. reflexivity.
Defined.

(** When the screenshot of a tick resolves, the frame is sent with the
    data of the screenshot and the next tick of the same loop is put on
    a timer, kept in [streamTimeout]; the streaming flag is not read
    again before either. *)
Theorem capture_success_sends_frame_and_rearms s tid p l d :
  pool s !! tid = Some (Some (Screenshot p, KCapture l)) ->
  let s1 := step (Settle tid (Resolve d)) s in
  trace s1 = trace s ++ [Emit (Frame d)] /\
  timers s1 = timers s ++ [Some l] /\
  streamTimeout s1 = Some (length (timers s)) /\
  pool s1 = <[tid := None]> (pool s) /\
  streaming s1 = streaming s.
Proof.
  intros Hl. cbv zeta. unfold step, pending in *. rewrite Hl. by destruct s.
Qed.

Lemma capture_success_sends_frame_and_rearms_witness :
  let s1 := step (Settle 1 (Resolve "f0")) streaming_a in
  trace s1 = trace streaming_a ++ [Emit (Frame "f0")] /\
  timers s1 = timers streaming_a ++ [Some 0] /\
  streamTimeout s1 = Some (length (timers streaming_a)) /\
  pool s1 = <[1 := None]> (pool streaming_a) /\
  streaming s1 = streaming streaming_a.
Proof.
  exact (capture_success_sends_frame_and_rearms streaming_a 1 1 0 "f0" eq_refl).
Defined.

(** A timer for a loop is armed only by the turn in which a screenshot
    of that loop resolves, which is the turn that sends its frame. *)
Theorem timer_armed_only_after_frame e s l :
  scheduled_of l s < scheduled_of l (step e s) ->
  frames (step e s) = frames s + 1 /\
  exists tid o d, e = Settle tid (Resolve d)
                  /\ pool s !! tid = Some (Some (o, KCapture l)).
Proof.
  intros Hlt. destruct e as [c|tid r|t|c name].
  - exfalso. simpl in Hlt. destruct (handle_quiet c s) as (Q & _ & _).
    destruct (handle c s) as [s1 k]. destruct Q as [_ _ _ QT _].
    specialize (QT l). simpl in *. unfold scheduled_of in *. simpl in *. lia.
  - destruct (pool s !! tid) as [[t|]|] eqn:Hl;
      try (exfalso; simpl in Hlt; unfold pending in *; rewrite Hl in Hlt; lia).
    destruct (is_capture (Some t)) eqn:Hc.
    + destruct t as [o k0]. destruct k0 as [| |l'| | | |]; try discriminate Hc.
      destruct (capture_settle o l' r s tid Hl) as (_ & _ & _ & F & _ & T & _).
      specialize (T l). destruct r as [d|err]; [|lia].
      destruct (Nat.eqb_spec l l') as [->|Hne]; [|lia].
      split; [lia|]. by exists tid, o, d.
    + exfalso. destruct (goto_resolved t r) eqn:Hg.
      * destruct t as [[] []], r; try discriminate Hg.
        simpl in Hlt. unfold pending in *. rewrite Hl in Hlt.
        unfold settle in Hlt. simpl in Hlt. unfold captureFrame in Hlt.
        simpl in Hlt. unfold scheduled_of in Hlt.
        destruct (page s), (browser s), (connected s); simpl in Hlt; lia.
      * simpl in Hlt. unfold pending in *. rewrite Hl in Hlt.
        destruct (settle_quiet t r s Hc Hg) as (Q & _ & _).
        destruct (settle t r s) as [s1 k]. destruct Q as [_ _ _ QT _].
        specialize (QT l). simpl in *. unfold scheduled_of in *. simpl in *. lia.
  - exfalso. simpl in Hlt. destruct (timers s !! t) as [[l'|]|] eqn:Ht; try lia.
    unfold captureFrame, scheduled_of in Hlt. simpl in Hlt.
    pose proof (filter_length_insert_le (is_timer_of l) (timers s) t None eq_refl).
    destruct (page s), (browser s), (streaming s), (connected s);
      simpl in Hlt; lia.
  - exfalso. simpl in Hlt. unfold cdp_notify, scheduled_of in Hlt.
    repeat case_match; simpl in Hlt; lia.
Qed.

Lemma timer_armed_only_after_frame_witness :
  frames (step (Settle 1 (Resolve "f0")) streaming_a) = frames streaming_a + 1 /\
  exists tid o d, Settle 1 (Resolve "f0") = Settle tid (Resolve d)
                  /\ pool streaming_a !! tid = Some (Some (o, KCapture 0)).
Proof.
  apply (timer_armed_only_after_frame (Settle 1 (Resolve "f0")) streaming_a 0).
  vm_compute. lia.
Defined.

(** Streaming is switched on only by the turn that sends
    session-started. *)
Theorem streaming_starts_with_session_started e s :
  streaming s = false ->
  streaming (step e s) = true ->
  sessions_started s < sessions_started (step e s).
Proof.
  intros Hs Ht.
  pose proof (count_step_mono is_session_started e s) as M.
  fold sessions_started in M.
  destruct (decide (sessions_started (step e s) = sessions_started s)) as [E|NE];
    [|lia].
  destruct (step_stopped e s Hs E) as [S1 _]. congruence.
Qed.

Lemma streaming_starts_with_session_started_witness :
  let s := run (start_a :: replicate 7 (Settle 0 ok)) (init None) in
  sessions_started s < sessions_started (step (Settle 0 ok) s).
Proof.
  apply (streaming_starts_with_session_started (Settle 0 ok)
           (run (start_a :: replicate 7 (Settle 0 ok)) (init None)));
    vm_compute; reflexivity.
Defined.

Lemma step_disconnected e s :
  connected s = false ->
  connected (step e s) = false /\ in_flight (step e s) <= in_flight s.
Proof.
  intros Hc. destruct e as [c|tid r|t|c name].
  - simpl. destruct (handle_quiet c s) as (Q & P & C).
    destruct (handle c s) as [s1 k]. simpl in *.
    destruct Q as [_ _ _ _ QC]. split; [auto|].
    unfold in_flight. simpl. rewrite P, filter_length_snoc, C. lia.
  - destruct (pool s !! tid) as [[t|]|] eqn:Hl;
      try (simpl; unfold pending in *; rewrite Hl; split; [done|lia]).
    assert (forall q : list (option (op * kont)),
              length (List.filter is_capture (<[tid:=None]> q))
              <= length (List.filter is_capture q)) as Hi
      by (intros q; by apply filter_length_insert_le).
    destruct (is_capture (Some t)) eqn:Hcap.
    + destruct t as [o k0]. destruct k0 as [| |l| | | |]; try discriminate Hcap.
      simpl. unfold pending in *. rewrite Hl. unfold settle. simpl.
      destruct (engine_quiet o r s) as [[_ _ _ _ QC] P].
      destruct (engine_settle o r s) as [h s0]. simpl in *.
      unfold in_flight.
      destruct r; simpl; rewrite P; (split; [auto|apply Hi]).
    + destruct (goto_resolved t r) eqn:Hg.
      * destruct t as [[] []], r; try discriminate Hg.
        simpl. unfold pending in *. rewrite Hl. unfold settle. simpl.
        unfold captureFrame. simpl. rewrite Hc. unfold in_flight.
        destruct (page s), (browser s); simpl; (split; [done|apply Hi]).
      * simpl. unfold pending in *. rewrite Hl.
        destruct (settle_quiet t r s Hcap Hg) as (Q & P & C).
        destruct (settle t r s) as [s1 k]. simpl in *.
        destruct Q as [_ _ _ _ QC]. split; [auto|].
        unfold in_flight. simpl. rewrite P.
        by apply filter_length_insert_le.
  - simpl. destruct (timers s !! t) as [[l|]|]; try (split; [done|lia]).
    unfold captureFrame, in_flight. simpl. rewrite Hc.
    destruct (page s), (browser s), (streaming s); simpl; (split; [done|lia]).
  - simpl. unfold cdp_notify, in_flight.
    repeat case_match; simpl; (split; [done|lia]).
Qed.

Lemma run_disconnected es s :
  connected s = false ->
  connected (run es s) = false /\ in_flight (run es s) <= in_flight s.
Proof.
  revert s. induction es as [|e es IH]; intros s C0; simpl; [split; [done|lia]|].
  destruct (step_disconnected e s C0) as [C1 F1].
  destruct (IH (step e s) C1) as [C2 F2]. split; [done|lia].
Qed.

(** After a disconnect no screenshot is ever begun again on the
    connection, whatever is delivered to it. *)
Theorem no_capture_after_disconnect s es :
  let s1 := step (Recv Disconnect) s in
  connected (run es s1) = false /\ in_flight (run es s1) <= in_flight s.
Proof.
  cbv zeta.
  assert (connected (step (Recv Disconnect) s) = false
          /\ in_flight (step (Recv Disconnect) s) = in_flight s) as [C0 F0].
  { destruct s as [b p c sg [t|] cn ex pl tm lp nh lv vp ls tr0];
      unfold in_flight; split_cases; simpl;
      rewrite ?filter_length_snoc; simpl; (split; [done|lia]). }
  destruct (run_disconnected es _ C0) as [C1 F1]. split; [done|lia].
Qed.

(** ** Releasing the engine *)

(** [cleanupBrowser] detaches the CDP session, closes the page and
    closes the browser, in this order, each only if its handle is set
    and whether or not the call before it was rejected; the browser it
    closed is no longer live. *)
Theorem cleanup_releases_in_order who oracle s :
  returns_to_caller who = true ->
  let st := run_alone 3 oracle 0 (cleanupBrowser who s) in
  trace st.1 = trace s ++ Enter CleanupBrowser :: map Call (release_calls s) /\
  live st.1 = match browser s with
              | Some b => filter (λ x, x ≠ b) (live s)
              | None => live s
              end.
Proof.
  intros Hw. destruct who; [discriminate Hw| |];
    destruct s as [[b|] [p|] [c|] sg st0 cn ex pl tm lp nh lv vp ls tr0];
    cbv zeta; unfold release_calls;
    repeat (cleanup_norm; cbv beta iota delta [cleanup_done];
            first [rewrite run_alone_step | rewrite run_alone_done]);
    simpl; rewrite <- ?app_assoc; done.
Qed.

Lemma cleanup_releases_in_order_witness :
  let st := run_alone 3 unreachable 0 (cleanupBrowser FromTeardown streaming_a) in
  trace st.1 = trace streaming_a
               ++ Enter CleanupBrowser :: map Call (release_calls streaming_a) /\
  live st.1 = match browser streaming_a with
              | Some b => filter (λ x, x ≠ b) (live streaming_a)
              | None => live streaming_a
              end.
Proof.
  exact (cleanup_releases_in_order FromTeardown unreachable streaming_a eq_refl).
Defined.



(** ** A start that succeeds *)

Ltac cleanup_full_fin :=
  eexists; split; [lia|];
  split;
  [ idtac
  | intros n; simpl Nat.add;
    repeat (cleanup_norm; rewrite run_alone_step); cleanup_norm; reflexivity ];
  split;
  [ split; [reflexivity
           | eexists; split; [rewrite <- ?app_assoc; reflexivity | reflexivity]
           | reflexivity
           | simpl; eauto using filter_ne_subset]
  | split; reflexivity ].

Lemma cleanup_alone_untouched who s oracle i :
  exists j s', j <= 3
    /\ (released s s' /\ untouched s s')
    /\ forall n, run_alone (j + n) oracle i (cleanupBrowser who s)
                 = run_alone n oracle (j + i) (cleanup_done who s').
Proof.
  destruct s as [[b|] [p|] [c|] sg st cn ex pl tm lp nh lv vp ls tr0].
  all: first [exists 3; cleanup_full_fin | exists 2; cleanup_full_fin
             | exists 1; cleanup_full_fin | exists 0; cleanup_full_fin].
Qed.

Lemma start_success_alone a s oracle i m :
  (browser s, page s, cdpClient s) = (None, None, None) ->
  resolves_all oracle ->
  exists s', run_alone (8 + m) oracle i (start_launch a s) = (s', None)
             /\ started a (next_handle s) s s'.
Proof.
  intros Hh HR.
  destruct s as [b p c sg st cn ex pl tm lp nh lv vp ls tr0]. simpl in Hh.
  simplify_eq. simpl Nat.add. alone_norm.
  do 8 (rewrite run_alone_step; cbv beta iota delta [fst snd];
        match goal with
        | |- context [oracle ?j ?o] =>
            let d := fresh "d" in let E := fresh "E" in
            destruct (HR j o) as [d E]; rewrite E; clear E
        end; alone_norm).
  destruct cn; rewrite run_alone_done; eexists; (split; [reflexivity|]);
    (split;
     [ reflexivity
     | eexists; split; [rewrite <- ?app_assoc; reflexivity | reflexivity]
     | reflexivity
     | simpl; apply lookup_insert_eq
     | simpl; set_solver
     | simpl; by rewrite ?app_nil_r
     | reflexivity ]).
Qed.

Lemma stop_untouched s :
  (browser (stopStreaming s), page (stopStreaming s), cdpClient (stopStreaming s))
  = (browser s, page s, cdpClient s) /\
  (connected (stopStreaming s), pool (stopStreaming s), loops (stopStreaming s))
  = (connected s, pool s, loops s) /\
  (next_handle (stopStreaming s), viewports (stopStreaming s), live (stopStreaming s))
  = (next_handle s, viewports s, live s) /\
  streaming (stopStreaming s) = false /\
  streamTimeout (stopStreaming s) = None /\
  (forall l, scheduled_of l (stopStreaming s) <= scheduled_of l s) /\
  (forall t, streamTimeout s = Some t ->
     timers (stopStreaming s) = <[t := None]> (timers s)) /\
  trace (stopStreaming s) = trace s ++ [Enter StopStreaming].
Proof.
  destruct s as [b p c sg [t|] cn ex pl tm lp nh lv vp ls tr0]; simpl;
    repeat split; try done; intros; simplify_eq; try done;
    unfold scheduled_of; simpl; by apply filter_length_insert_le.
Qed.

(** When every engine call resolves, a start-session handler run on its
    own ends after at most 11 awaits: it has sent session-started and
    nothing else, the three handles are the ones just created, the
    viewport of the new page is the requested one (1280 by 720 where
    the size was missing or zero), the loading listeners are installed,
    streaming is on and the first tick is in flight if the socket is
    still connected; the only browser added is the new one. *)
Theorem start_session_success u w h s oracle :
  falsy_str u = false ->
  resolves_all oracle ->
  let st := run_alone 11 oracle 0 (start_session u w h s) in
  st.2 = None /\
  exists b,
    (browser st.1, page st.1, cdpClient st.1) = (Some b, Some (S b), Some (S (S b))) /\
    (exists tr, trace st.1 = trace s ++ tr
                /\ List.filter is_emit tr = [Emit SessionStarted]) /\
    streaming st.1 = true /\
    viewports st.1 !! S b = Some (num_or w DEFAULT_WIDTH, num_or h DEFAULT_HEIGHT) /\
    S (S b) ∈ listening st.1 /\
    pool st.1 = pool s ++ (if connected s
                           then [Some (Screenshot (S b), KCapture (loops s))]
                           else []) /\
    (forall x, x ∈ live st.1 -> x = b \/ x ∈ live s).
Proof.
  intros Hu HR. cbv zeta. unfold start_session. rewrite Hu.
  set (a := {| url := u; width := w; height := h |}).
  destruct (cleanup_alone_untouched (FromStart a) (stopStreaming s) oracle 0)
    as (j & s1 & Hj & [R U] & E).
  destruct (stop_then_release s s1 R) as (Hh & (tr1 & Ht1 & He1) & Hl1).
  destruct U as [U1 U2 U3].
  destruct (stop_untouched s) as (_ & V1 & V2 & _).
  replace 11 with (j + (8 + (3 - j))) by lia. rewrite E. simpl cleanup_done.
  destruct (start_success_alone a s1 oracle (j + 0) (3 - j) Hh HR)
    as (s' & -> & [Fh (tr2 & Ht2 & He2) Fs Fv Fl Fp Fb]).
  injection U1 as Uc _. injection U2 as Up _ Ul. injection V1 as Vc Vp Vl.
  simpl. split; [done|]. exists (next_handle s1).
  split; [done|]. split.
  { exists (tr1 ++ tr2). rewrite Ht2, Ht1, <- app_assoc. split; [done|].
    by rewrite List.filter_app, He1, He2. }
  split; [done|]. split; [done|]. split; [done|]. split.
  - by rewrite Fp, Up, Vp, Uc, Vc, Ul, Vl.
  - intros x Hx. rewrite Fb in Hx. apply elem_of_cons in Hx as [->|Hx]; auto.
Qed.

Lemma start_session_success_witness :
  let st := run_alone 11 obliging 0
              (start_session (Some "https://b.example") None None streaming_a) in
  st.2 = None /\
  exists b,
    (browser st.1, page st.1, cdpClient st.1) = (Some b, Some (S b), Some (S (S b))) /\
    (exists tr, trace st.1 = trace streaming_a ++ tr
                /\ List.filter is_emit tr = [Emit SessionStarted]) /\
    streaming st.1 = true /\
    viewports st.1 !! S b = Some (num_or None DEFAULT_WIDTH, num_or None DEFAULT_HEIGHT) /\
    S (S b) ∈ listening st.1 /\
    pool st.1 = pool streaming_a
                ++ (if connected streaming_a
                    then [Some (Screenshot (S b), KCapture (loops streaming_a))]
                    else []) /\
    (forall x, x ∈ live st.1 -> x = b \/ x ∈ live streaming_a).
Proof.
  apply (start_session_success (Some "https://b.example") None None streaming_a
           obliging eq_refl).
  intros i o. by exists "".
Defined.

